(** * Real-time depth pipeline: frame skipping, flow propagation, EMA filter

    A shallow embedding of the notebook
    [Strategy_for_Real_Time_optimized_depth_estimation.ipynb]:
    the configuration cell, [estimate_depth_midas],
    [propagate_depth_optical_flow], [apply_temporal_filter] and the body of
    the capture loop.

    Conventions.
    - Images and maps are row-major grids, [list (list A)]: index [y] selects
      a row, index [x] a column, as in [a[y][x]] on a NumPy array.
    - Depth values are exact rationals ([Q]); the module [Binary32] at the end
      evaluates the filter expression as NumPy does on [float32] arrays.
    - A Python exception is the [Raise] branch of [result]; assignments made
      before the exception stay in the state, as they do in Python.
    - The neural network, the bicubic resize, the Farneback solver, the colour
      conversion and the display are library code: they are section
      variables, and what the library documents about them is a section
      hypothesis. *)

From Stdlib Require Import ZArith QArith Qround Qminmax Qabs Lia Lqa Bool.
From Stdlib Require Floats.SpecFloat.
From stdpp Require Import base option list.

Set Default Proof Using "Type".
Local Open Scope Z_scope.

(** ** Exceptions and results *)

Inductive exn : Type :=
  | ZeroDivisionError   (* [%] with a zero divisor *)
  | ValueError          (* NumPy: operands could not be broadcast together *)
  | cv2_error           (* an OpenCV assertion failed *)
  | RuntimeError        (* raised by the network (torch) *)
  | DisplayError.       (* raised while showing the map *)

Inductive result (A : Type) : Type :=
  | Ok (a : A)
  | Raise (e : exn).
Arguments Ok {A} a.
Arguments Raise {A} e.


(** ** Grids *)

Abbreviation Array2 A := (list (list A)) (only parsing).

(** [a.shape[:2]] *)
Definition shape {A} (a : Array2 A) : nat * nat :=
  (length a, match a with [] => 0%nat | r :: _ => length r end).

(** A grid is rectangular with [h] rows and [w] columns. *)
Definition has_dims {A} (h w : nat) (a : Array2 A) : Prop :=
  length a = h ∧ Forall (λ r, length r = w) a.

(** Pixel [(y, x)], when it exists. *)
Definition px {A} (a : Array2 A) (y x : nat) : option A :=
  a !! y ≫= λ r, r !! x.

(** [a[y][x]] with a default for an index out of range. *)
Definition get2 {A} (d : A) (a : Array2 A) (y x : nat) : A :=
  nth x (nth y a []) d.

(** The [h]-by-[w] grid whose pixel [(y, x)] is [g y x]. *)
Definition tabulate {A} (h w : nat) (g : nat → nat → A) : Array2 A :=
  map (λ y, map (λ x, g y x) (seq 0 w)) (seq 0 h).

(** ** NumPy arithmetic on two-dimensional arrays *)

(** Broadcasting of one axis: equal lengths, or one of them is 1. *)
Definition broadcast_len (n m : nat) : option nat :=
  if (n =? m)%nat then Some n
  else if (n =? 1)%nat then Some m
  else if (m =? 1)%nat then Some n
  else None.

(** Index into an axis of length [n] that is broadcast. *)
Definition bidx (n i : nat) : nat := if (n =? 1)%nat then 0%nat else i.

(** [a (op) b] for two 2-D arrays. *)
Definition np_binop (f : Q → Q → Q) (a b : Array2 Q) : result (Array2 Q) :=
  let '(ha, wa) := shape a in
  let '(hb, wb) := shape b in
  match broadcast_len ha hb, broadcast_len wa wb with
  | Some h, Some w =>
      Ok (tabulate h w (λ y x,
            f (get2 0%Q a (bidx ha y) (bidx wa x))
              (get2 0%Q b (bidx hb y) (bidx wb x))))
  | _, _ => Raise ValueError
  end.

Definition np_add : Array2 Q → Array2 Q → result (Array2 Q) := np_binop Qplus.

(** [c * a] for a Python scalar [c]. *)
Definition np_scale (c : Q) (a : Array2 Q) : Array2 Q := map (map (Qmult c)) a.

(** [np.arange(n)] *)
Definition np_arange (n : nat) : list Z := map Z.of_nat (seq 0 n).

(** [np.meshgrid(xs, ys, indexing='xy')]: both outputs have [len(ys)] rows and
    [len(xs)] columns; the first repeats [xs] along the rows, the second
    repeats [ys] along the columns. *)
Definition np_meshgrid_xy {A} (xs ys : list A) : Array2 A * Array2 A :=
  (map (λ _, xs) ys, map (λ y, map (λ _, y) xs) ys).

(** ** Configuration cell *)

Record Config : Type := mkConfig {
  FRAME_SKIP : Z;        (* estimate depth every N frames *)
  TEMPORAL_ALPHA : Q     (* weight of the history in the moving average *)
}.

Definition default_config : Config :=
  {| FRAME_SKIP := 5; TEMPORAL_ALPHA := 9 # 10 |}.

(** ** Scheduling branch of the loop *)

Inductive Decision : Type := INFER | PROPAGATE.

(** Python's [a % b] on integers: the sign follows the divisor, and a zero
    divisor raises. *)
Definition py_mod (a b : Z) : result Z :=
  if b =? 0 then Raise ZeroDivisionError else Ok (a mod b).

(** [x is None] *)
Definition is_None {A} (x : option A) : bool :=
  match x with None => true | Some _ => false end.

(** [frame_count % FRAME_SKIP == 0 or prev_depth is None] selects the first
    branch of the loop ([INFER]); the [else] branch is [PROPAGATE]. The
    remainder is evaluated first, so a zero [FRAME_SKIP] raises. *)
Definition schedule {D} (cfg : Config) (frame_count : Z) (prev_depth : option D)
  : result Decision :=
  match py_mod frame_count (FRAME_SKIP cfg) with
  | Raise e => Raise e
  | Ok r => Ok (if (r =? 0) || is_None prev_depth then INFER else PROPAGATE)
  end.

(** ** Temporal filtering cell *)

Abbreviation DepthMap := (list (list Q)) (only parsing).

(** [TEMPORAL_ALPHA * prev_filtered + (1 - TEMPORAL_ALPHA) * new_depth] *)
Definition apply_temporal_filter (cfg : Config) (new_depth prev_filtered : DepthMap)
  : result DepthMap :=
  np_add (np_scale (TEMPORAL_ALPHA cfg) prev_filtered)
         (np_scale (1 - TEMPORAL_ALPHA cfg)%Q new_depth).

(** The smoothing branch of the loop:
    [if filtered_depth is None: filtered_depth = depth_map
     else: filtered_depth = apply_temporal_filter(depth_map, filtered_depth)];
    the result is the new value of [filtered_depth]. *)
Definition temporal_smoothing (cfg : Config) (depth_map : DepthMap)
    (filtered_depth : option DepthMap) : result DepthMap :=
  match filtered_depth with
  | None => Ok depth_map
  | Some f => apply_temporal_filter cfg depth_map f
  end.

(** ** OpenCV: border extrapolation and [remap] *)

Inductive BorderMode : Type :=
  | BORDER_CONSTANT     (* iiiiii|abcdefgh|iiiiiii *)
  | BORDER_REPLICATE    (* aaaaaa|abcdefgh|hhhhhhh *)
  | BORDER_REFLECT.     (* fedcba|abcdefgh|hgfedcb *)

Definition in_range (p len : Z) : bool := (0 <=? p) && (p <? len).

(** The mirroring loop of [cv::borderInterpolate] for [BORDER_REFLECT]:
    [do { if (p < 0) p = -p - 1; else p = len - 1 - (p - len); }
     while ((unsigned)p >= (unsigned)len);] *)
Fixpoint reflect_loop (fuel : nat) (p len : Z) : Z :=
  match fuel with
  | O => p
  | S k =>
      let p' := if p <? 0 then - p - 1 else len - 1 - (p - len) in
      if in_range p' len then p' else reflect_loop k p' len
  end.

(** [cv::borderInterpolate(p, len, borderType)]; [-1] stands for "use the
    border value". Every round of the loop moves [p] closer to the range by
    [len], so [|p| + 1] rounds are enough. *)
Definition borderInterpolate (p len : Z) (b : BorderMode) : Z :=
  if in_range p len then p
  else match b with
       | BORDER_REPLICATE => if p <? 0 then 0 else len - 1
       | BORDER_REFLECT =>
           if len =? 1 then 0 else reflect_loop (S (Z.abs_nat p)) p len
       | BORDER_CONSTANT => -1
       end.

(** The source pixel at row [r], column [c], extrapolated outside the grid;
    the border value of [BORDER_CONSTANT] is the default, 0. *)
Definition border_px (src : Array2 Q) (b : BorderMode) (r c : Z) : Q :=
  let '(H, W) := shape src in
  let r' := borderInterpolate r (Z.of_nat H) b in
  let c' := borderInterpolate c (Z.of_nat W) b in
  if (r' <? 0) || (c' <? 0) then 0%Q
  else get2 0%Q src (Z.to_nat r') (Z.to_nat c').



(** [cvRound]: the nearest integer, a tie going to the even one. *)
Definition cvRound (q : Q) : Z :=
  let f := Qfloor q in
  match (q - inject_Z f ?= 1 # 2)%Q with
  | Lt => f
  | Gt => f + 1
  | Eq => if Z.even f then f else f + 1
  end.

(** One destination pixel of [cv2.remap] with [INTER_LINEAR], for the sampling
    point at column [u], row [v]. OpenCV turns the point into fixed point
    with [INTER_BITS = 5] fractional bits,
    [sx = cvRound(u * INTER_TAB_SIZE)], [sy = cvRound(v * INTER_TAB_SIZE)],
    takes [sx >> 5], [sy >> 5] as the top-left pixel and looks the four
    weights up in a table indexed by [sx & 31], [sy & 31]:
    [(1 - fy)(1 - fx)], [(1 - fy) fx], [fy (1 - fx)], [fy fx] with
    [fx = (sx & 31) / 32], [fy = (sy & 31) / 32]. The weighted sum is exact
    here; OpenCV evaluates it in [float32]. *)
Definition remap_px (src : Array2 Q) (b : BorderMode) (u v : Q) : Q :=
  let sx := cvRound (u * 32) in
  let sy := cvRound (v * 32) in
  let ix := Z.shiftr sx 5 in
  let iy := Z.shiftr sy 5 in
  let fx := (inject_Z (Z.land sx 31) / 32)%Q in
  let fy := (inject_Z (Z.land sy 31) / 32)%Q in
  ((1 - fy) * (1 - fx) * border_px src b iy ix
   + (1 - fy) * fx * border_px src b iy (ix + 1)
   + fy * (1 - fx) * border_px src b (iy + 1) ix
   + fy * fx * border_px src b (iy + 1) (ix + 1))%Q.

(** [cv2.remap(src, map_x, map_y, interpolation=cv2.INTER_LINEAR,
    borderMode=b)]: [dst(x, y)] is [src] sampled at
    [(map_x(x, y), map_y(x, y))], the destination having the size of the
    maps. OpenCV asserts that the maps are not empty and have one size, and
    that the border index is taken on a non-empty axis. Sizes and sampling
    points are taken to fit OpenCV's 16-bit fixed-point maps. *)
Definition cv2_remap_linear (src : Array2 Q) (map_x map_y : Array2 Q) (b : BorderMode)
  : result (Array2 Q) :=
  let '(h, w) := shape map_x in
  let '(H, W) := shape src in
  if (h =? 0)%nat || (w =? 0)%nat || (H =? 0)%nat || (W =? 0)%nat then Raise cv2_error
  else if negb (bool_decide (shape map_y = (h, w))) then Raise cv2_error
  else Ok (tabulate h w (λ y x,
             remap_px src b (get2 0%Q map_x y x) (get2 0%Q map_y y x))).

(** ** Frames, flow fields and the state of the loop *)

Abbreviation BGR := (Z * Z * Z)%type (only parsing).
Abbreviation Frame := (list (list (Z * Z * Z))) (only parsing).
Abbreviation GrayFrame := (list (list Z)) (only parsing).
Abbreviation FlowField := (list (list (Q * Q))) (only parsing).

(** The four variables the loop carries from one frame to the next. *)
Record State : Type := mkState {
  frame_count : Z;
  prev_gray : option GrayFrame;
  prev_depth : option DepthMap;
  filtered_depth : option DepthMap
}.

(** The assignments before the [while]. *)
Definition initial_state : State :=
  {| frame_count := 0; prev_gray := None; prev_depth := None;
     filtered_depth := None |}.


(** ** A state monad with exceptions

    A computation maps the state before to the state after and either a value
    or the exception that interrupted it. *)

Definition M (A : Type) : Type := State → State * result A.

Definition ret {A} (a : A) : M A := λ s, (s, Ok a).

Definition bind {A B} (m : M A) (k : A → M B) : M B :=
  λ s, match m s with
       | (s', Ok a) => k a s'
       | (s', Raise e) => (s', Raise e)
       end.

Notation "x <- m ;; k" := (bind m (λ x, k))
  (at level 100, m at next level, right associativity).
Notation "m ;;; k" := (bind m (λ _, k))
  (at level 100, right associativity).

Definition get : M State := λ s, (s, Ok s).
Definition lift {A} (r : result A) : M A := λ s, (s, r).

Definition set_prev_gray (g : GrayFrame) : M unit :=
  λ s, (mkState (frame_count s) (Some g) (prev_depth s) (filtered_depth s), Ok tt).
Definition set_prev_depth (d : DepthMap) : M unit :=
  λ s, (mkState (frame_count s) (prev_gray s) (Some d) (filtered_depth s), Ok tt).
Definition set_filtered_depth (d : DepthMap) : M unit :=
  λ s, (mkState (frame_count s) (prev_gray s) (prev_depth s) (Some d), Ok tt).
Definition incr_frame_count : M unit :=
  λ s, (mkState (frame_count s + 1) (prev_gray s) (prev_depth s) (filtered_depth s), Ok tt).

(** An OpenCV function given [None] for an image raises. *)
Definition cv2_image {A} (x : option A) : result A :=
  match x with Some a => Ok a | None => Raise cv2_error end.

Definition is_empty {A} (a : Array2 A) : bool :=
  let '(h, w) := shape a in (h =? 0)%nat || (w =? 0)%nat.

(** ** The filter on [float32] arrays

    The depth maps are [float32] arrays (the network's output, and what
    [cv2.remap] returns for it). NumPy converts the Python scalars
    [TEMPORAL_ALPHA] and [1 - TEMPORAL_ALPHA], the second one computed in
    double precision, to [float32], and rounds each product and the sum to
    [float32]. *)

Module Binary32.

Import SpecFloat.

(** The rational a finite float stands for. *)
Definition to_Q (x : spec_float) : Q :=
  match x with
  | S754_finite s m e => (inject_Z (cond_Zopp s (Zpos m)) * Qpower 2 e)%Q
  | _ => 0%Q
  end.

Definition float64_sub : spec_float → spec_float → spec_float := SFsub 53 1024.
Definition float32_mul : spec_float → spec_float → spec_float := SFmul 24 128.
Definition float32_add : spec_float → spec_float → spec_float := SFadd 24 128.

(** Rounding of a double to [float32], to nearest even. *)
Definition astype_float32 (x : spec_float) : spec_float :=
  match x with
  | S754_finite s m e => binary_normalize 24 128 (cond_Zopp s (Zpos m)) e s
  | _ => x
  end.

(** The double nearest to 0.9, [0x3FECCCCCCCCCCCCD]. *)
Definition TEMPORAL_ALPHA : spec_float :=
  S754_finite false 8106479329266893 (-53).

(** The [1] of [1 - TEMPORAL_ALPHA], converted to a double. *)
Definition one : spec_float := S754_finite false 4503599627370496 (-52).

(** An integer that [float32] holds exactly, as a [float32]. *)
Definition float32_of_Z (n : Z) : spec_float := binary_normalize 24 128 n 0 false.

(** One pixel of
    [TEMPORAL_ALPHA * prev_filtered + (1 - TEMPORAL_ALPHA) * new_depth]. *)
Definition apply_temporal_filter_px (new_depth prev_filtered : spec_float) : spec_float :=
  float32_add
    (float32_mul (astype_float32 TEMPORAL_ALPHA) prev_filtered)
    (float32_mul (astype_float32 (float64_sub one TEMPORAL_ALPHA)) new_depth).

(** The filter on two arrays of one shape. *)
Definition apply_temporal_filter (new_depth prev_filtered : Array2 spec_float)
  : Array2 spec_float :=
  zip_with (zip_with apply_temporal_filter_px) new_depth prev_filtered.

End Binary32.

(** ** Stand-ins for the library code

    Deterministic collaborators, used to run the loop on concrete frames. *)

Module Stub.

(** The green channel. *)
Definition gray_of_bgr (p : BGR) : Z := p.1.2.

Definition midas_forward (img : Array2 BGR) : result unit := Ok tt.

(** Depth [y + x + 1] at pixel [(y, x)]. *)
Definition interpolate_bicubic (_ : unit) (size : nat * nat) : DepthMap :=
  tabulate size.1 size.2 (λ y x, inject_Z (Z.of_nat (y + x + 1))).

(** No motion. *)
Definition farneback_solve (a b : GrayFrame) : FlowField :=
  tabulate (shape a).1 (shape a).2 (λ _ _, (0%Q, 0%Q)).

Definition display (_ : DepthMap) : result unit := Ok tt.

(** A frame of [h] rows and [w] columns, all pixels black. *)
Definition black (h w : nat) : Frame := tabulate h w (λ _ _, (0, 0, 0)).

End Stub.

Section Pipeline.

(** *** Library code *)

(** The luminance of one pixel, as [cv2.COLOR_BGR2GRAY] computes it. *)
Variable gray_of_bgr : BGR → Z.

(** [midas(transform(img_rgb).to(DEVICE).unsqueeze(0))]: the network's
    prediction at its own resolution, or an exception. *)
Variable Tensor : Type.
Variable midas_forward : Array2 BGR → result Tensor.

(** [torch.nn.functional.interpolate(prediction.unsqueeze(1), size=(h, w),
    mode="bicubic", align_corners=False).squeeze().cpu().numpy()]. For a
    frame with a single row or column [squeeze] also drops that axis and the
    array is one-dimensional; it then broadcasts as a single row. *)
Variable interpolate_bicubic : Tensor → nat * nat → DepthMap.

(** The Farneback solver called with [pyr_scale=0.5, levels=3, winsize=15,
    iterations=3, poly_n=5, poly_sigma=1.2, flags=0], on two images that
    passed the size assertion. *)
Variable farneback_solve : GrayFrame → GrayFrame → FlowField.

(** [cv2.normalize], [np.uint8], [cv2.applyColorMap] and [cv2.imshow] on the
    filtered map: they read it and may raise. *)
Variable display : DepthMap → result unit.

Variable cfg : Config.

(** [interpolate] returns the requested size; [squeeze] then drops the batch
    and channel axes, and only them when both sides are at least 2. *)
Hypothesis interpolate_bicubic_dims : ∀ t h w,
  (1 < h)%nat → (1 < w)%nat → has_dims h w (interpolate_bicubic t (h, w)).

(** The flow has the size of the two images. *)
Hypothesis farneback_solve_dims : ∀ a b h w,
  has_dims h w a → has_dims h w b → has_dims h w (farneback_solve a b).

(** *** OpenCV wrappers *)

(** [cv2.cvtColor(frame, cv2.COLOR_BGR2GRAY)]; an empty image is refused. *)
Definition cvtColor_BGR2GRAY (frame : Frame) : result GrayFrame :=
  if is_empty frame then Raise cv2_error
  else Ok (map (map gray_of_bgr) frame).

(** [cv2.cvtColor(frame, cv2.COLOR_BGR2RGB)]: the channels are swapped. *)
Definition cvtColor_BGR2RGB (frame : Frame) : result (Array2 BGR) :=
  if is_empty frame then Raise cv2_error
  else Ok (map (map (λ '(b, g, r), (r, g, b))) frame).

(** [cv2.calcOpticalFlowFarneback(prev, next, None, ...)]: the first thing
    the function does is assert [prev0.size() == next0.size()]. *)
Definition calcOpticalFlowFarneback (prev next : GrayFrame) : result FlowField :=
  if bool_decide (shape prev = shape next) then Ok (farneback_solve prev next)
  else Raise cv2_error.

(** *** Depth estimation cell *)

Definition estimate_depth_midas (frame : Frame) : result DepthMap :=
  match cvtColor_BGR2RGB frame with
  | Raise e => Raise e
  | Ok img_rgb =>
      match midas_forward img_rgb with
      | Raise e => Raise e
      | Ok prediction => Ok (interpolate_bicubic prediction (shape img_rgb))
      end
  end.

(** *** Propagation cell *)

(** The lines after the flow is known: the sampling grid and the remap. The
    sums [x + flow_x] and [y + flow_y] are kept exact; NumPy rounds them to
    [float32] ([astype]) before the remap. *)
Definition warp_depth (flow : FlowField) (prev_depth : DepthMap) : result DepthMap :=
  let '(h, w) := shape flow in
  let '(flow_map_x, flow_map_y) := np_meshgrid_xy (np_arange w) (np_arange h) in
  match np_add (map (map inject_Z) flow_map_x) (map (map fst) flow) with
  | Raise e => Raise e
  | Ok remap_x =>
      match np_add (map (map inject_Z) flow_map_y) (map (map snd) flow) with
      | Raise e => Raise e
      | Ok remap_y => cv2_remap_linear prev_depth remap_x remap_y BORDER_REFLECT
      end
  end.

Definition propagate_depth_optical_flow
    (prev_gray curr_gray : GrayFrame) (prev_depth : DepthMap) : result DepthMap :=
  match calcOpticalFlowFarneback prev_gray curr_gray with
  | Raise e => Raise e
  | Ok flow => warp_depth flow prev_depth
  end.

(** *** Body of the capture loop, for a frame that was read *)

Definition loop_body (frame : Frame) : M DepthMap :=
  gray <- lift (cvtColor_BGR2GRAY frame) ;;
  s <- get ;;
  d <- lift (schedule cfg (frame_count s) (prev_depth s)) ;;
  depth_map <-
    match d with
    | INFER =>
        dm <- lift (estimate_depth_midas frame) ;;
        set_prev_depth dm ;;;
        ret dm
    | PROPAGATE =>
        pg <- lift (cv2_image (prev_gray s)) ;;
        pd <- lift (cv2_image (prev_depth s)) ;;
        lift (propagate_depth_optical_flow pg gray pd)
    end ;;
  s1 <- get ;;
  filtered <- lift (temporal_smoothing cfg depth_map (filtered_depth s1)) ;;
  set_filtered_depth filtered ;;;
  lift (display filtered) ;;;
  set_prev_gray gray ;;;
  set_prev_depth depth_map ;;;
  incr_frame_count ;;;
  ret filtered.

(** One frame, from a given state. *)
Definition process_frame (s : State) (frame : Frame) : State * result DepthMap :=
  loop_body frame s.

(** The raw depth map of a frame: the value of [depth_map] after the first
    [if] of the loop. *)
Definition raw_depth (s : State) (frame : Frame) : result DepthMap :=
  match cvtColor_BGR2GRAY frame with
  | Raise e => Raise e
  | Ok gray =>
    match schedule cfg (frame_count s) (prev_depth s) with
    | Raise e => Raise e
    | Ok INFER => estimate_depth_midas frame
    | Ok PROPAGATE =>
        match cv2_image (prev_gray s), cv2_image (prev_depth s) with
        | Ok pg, Ok pd => propagate_depth_optical_flow pg gray pd
        | Raise e, _ => Raise e
        | _, Raise e => Raise e
        end
    end
  end.

(** The frames of a stream, one after the other; the loop stops at the
    first exception. *)
Fixpoint run (s : State) (frames : list Frame) : State * result (list DepthMap) :=
  match frames with
  | [] => (s, Ok [])
  | f :: rest =>
      match process_frame s f with
      | (s', Raise e) => (s', Raise e)
      | (s', Ok out) =>
          match run s' rest with
          | (s'', Ok outs) => (s'', Ok (out :: outs))
          | (s'', Raise e) => (s'', Raise e)
          end
      end
  end.

(** *** Loop control *)

(** [cv2.waitKey(1) & 0xFF == ord('q')] *)
Definition quit_pressed (k : Z) : bool := Z.land k 255 =? 113.

(** The [while True] loop over the turns that are observed. A turn is what
    [cap.read()] returns ([None] when [ret] is false) and what
    [cv2.waitKey(1)] returns at the end of that turn: a failed read leaves
    the loop before anything is done, the key leaves it after the state was
    updated. *)
Fixpoint main_loop (s : State) (turns : list (option Frame * Z))
  : State * result (list DepthMap) :=
  match turns with
  | [] => (s, Ok [])
  | (None, _) :: _ => (s, Ok [])
  | (Some frame, k) :: rest =>
      match process_frame s frame with
      | (s', Raise e) => (s', Raise e)
      | (s', Ok out) =>
          if quit_pressed k then (s', Ok [out])
          else
            match main_loop s' rest with
            | (s'', Ok outs) => (s'', Ok (out :: outs))
            | (s'', Raise e) => (s'', Raise e)
            end
      end
  end.

(** *** Normalisation for the display *)

Definition DBL_EPSILON : Q := 1 # 4503599627370496.

(** Smallest and largest value of a list; 0 for the empty list, as
    [cv::minMaxIdx] reports for an empty array. *)
Definition min_of (l : list Q) : Q :=
  match l with [] => 0%Q | v :: vs => fold_left Qmin vs v end.
Definition max_of (l : list Q) : Q :=
  match l with [] => 0%Q | v :: vs => fold_left Qmax vs v end.

(** [cv2.normalize(src, None, a, b, cv2.NORM_MINMAX)]:
    [scale = (dmax - dmin) * (smax - smin > DBL_EPSILON ? 1/(smax - smin) : 0)],
    [shift = dmin - smin * scale], [dst = src * scale + shift]. The
    arithmetic is exact here; OpenCV rounds the scale, the shift and the
    result to [float32], so a value just under an integer may be one less
    once [np.uint8] drops the fraction. *)
Definition cv2_normalize_minmax (src : Array2 Q) (a b : Q) : Array2 Q :=
  let smin := min_of (concat src) in
  let smax := max_of (concat src) in
  let dmin := Qmin a b in
  let dmax := Qmax a b in
  let scale :=
    ((dmax - dmin)
     * (if Qle_bool (smax - smin) DBL_EPSILON then 0 else / (smax - smin)))%Q in
  let shift := (dmin - smin * scale)%Q in
  map (map (λ x, x * scale + shift)%Q) src.

(** [np.uint8(x)] on a float: the fraction is dropped (towards zero) and the
    integer is kept modulo 256. *)
Definition np_uint8 (x : Q) : Z :=
  (if Qle_bool 0 x then Qfloor x else Qceiling x) mod 256.

(** [depth_vis] after the two lines under [# Normalize for display]. *)
Definition depth_vis (filtered : DepthMap) : Array2 Z :=
  map (map np_uint8) (cv2_normalize_minmax filtered 0 255).

(** *** Grids *)

Lemma lookup_map {A B} (f : A → B) (l : list A) (i : nat) :
  map f l !! i = f <$> (l !! i).
Proof. exact (list_lookup_fmap f l i). Qed.

Lemma tabulate_dims {A} h w (g : nat → nat → A) : has_dims h w (tabulate h w g).
Proof.
  split; unfold tabulate.
  - by rewrite length_map, length_seq.
  - apply Forall_forall. intros r Hr.
    apply list_elem_of_In, in_map_iff in Hr as (y & <- & _).
    by rewrite length_map, length_seq.
Qed.

Lemma px_tabulate {A} h w (g : nat → nat → A) y x :
  (y < h)%nat → (x < w)%nat → px (tabulate h w g) y x = Some (g y x).
Proof.
  intros Hy Hx. unfold px, tabulate.
  rewrite lookup_map, lookup_seq_lt by done. simpl.
  by rewrite lookup_map, lookup_seq_lt.
Qed.

Lemma px_lt {A} h w (a : Array2 A) y x v :
  has_dims h w a → px a y x = Some v → (y < h)%nat ∧ (x < w)%nat.
Proof.
  intros [Hh Hw] Hpx. unfold px in Hpx.
  destruct (a !! y) as [r|] eqn:Hr; simpl in Hpx; [|done].
  split.
  - rewrite <- Hh. by eapply lookup_lt_Some.
  - rewrite Forall_lookup in Hw. rewrite <- (Hw _ _ Hr). by eapply lookup_lt_Some.
Qed.

Lemma px_is_Some {A} h w (a : Array2 A) y x :
  has_dims h w a → (y < h)%nat → (x < w)%nat → ∃ v, px a y x = Some v.
Proof.
  intros [Hh Hw] Hy Hx. unfold px.
  destruct (lookup_lt_is_Some_2 a y) as [r Hr]; [lia|].
  rewrite Hr. simpl. rewrite Forall_lookup in Hw.
  destruct (lookup_lt_is_Some_2 r x) as [v Hv]; [rewrite (Hw _ _ Hr); lia|].
  eauto.
Qed.

Lemma get2_px {A} (d : A) (a : Array2 A) y x v :
  px a y x = Some v → get2 d a y x = v.
Proof.
  unfold px, get2. intros Hpx.
  destruct (a !! y) as [r|] eqn:Hr; simpl in Hpx; [|done].
  rewrite (nth_lookup_Some _ _ [] _ Hr). by apply nth_lookup_Some.
Qed.

Lemma shape_dims {A} h w (a : Array2 A) :
  has_dims h w a → (0 < h)%nat → shape a = (h, w).
Proof.
  intros [Hh Hw] Hpos. unfold shape. destruct a as [|r a]; simpl in *; [lia|].
  f_equal; [done|]. by inversion Hw.
Qed.

Lemma map_map_dims {A B} (f : A → B) h w (a : Array2 A) :
  has_dims h w a → has_dims h w (map (map f) a).
Proof.
  intros [Hh Hw]. split; [by rewrite length_map|].
  apply Forall_forall. intros r Hr.
  apply list_elem_of_In, in_map_iff in Hr as (r0 & <- & Hr0).
  rewrite length_map. rewrite Forall_forall in Hw. apply Hw. by apply list_elem_of_In.
Qed.

Lemma px_map_map {A B} (f : A → B) (a : Array2 A) y x :
  px (map (map f) a) y x = f <$> px a y x.
Proof.
  unfold px. rewrite lookup_map. destruct (a !! y) as [r|]; simpl; [|done].
  by rewrite lookup_map.
Qed.

(** *** NumPy arithmetic *)

Lemma broadcast_len_same n : broadcast_len n n = Some n.
Proof. unfold broadcast_len. by rewrite Nat.eqb_refl. Qed.

Lemma bidx_lt n i : (i < n)%nat → bidx n i = i.
Proof. unfold bidx. intros Hi. destruct (Nat.eqb_spec n 1); lia. Qed.

Lemma shape_dims_0 {A} w (a : Array2 A) : has_dims 0 w a → a = [].
Proof. intros [Hh _]. by destruct a. Qed.

(** On two arrays of one shape the operation succeeds and acts pixel by
    pixel. *)
Lemma np_binop_same_dims f (a b : Array2 Q) h w :
  has_dims h w a → has_dims h w b →
  ∃ out, np_binop f a b = Ok out ∧ has_dims h w out ∧
    ∀ y x va vb, px a y x = Some va → px b y x = Some vb →
      px out y x = Some (f va vb).
Proof.
  intros Ha Hb. destruct (Nat.eq_dec h 0%nat) as [->|Hh].
  - rewrite (shape_dims_0 _ _ Ha), (shape_dims_0 _ _ Hb).
    exists []. repeat split; [by constructor|]. intros y x va vb Hpa. by destruct y.
  - unfold np_binop.
    rewrite (shape_dims h w a), (shape_dims h w b) by (done || lia).
    rewrite !broadcast_len_same. eexists. split; [done|].
    split; [apply tabulate_dims|].
    intros y x va vb Hpa Hpb.
    destruct (px_lt _ _ _ _ _ _ Ha Hpa) as [Hy Hx].
    rewrite px_tabulate by done. rewrite !bidx_lt by done.
    by rewrite (get2_px _ _ _ _ _ Hpa), (get2_px _ _ _ _ _ Hpb).
Qed.

Lemma np_scale_dims c (a : Array2 Q) h w :
  has_dims h w a → has_dims h w (np_scale c a).
Proof. apply map_map_dims. Qed.

Lemma px_np_scale c (a : Array2 Q) y x :
  px (np_scale c a) y x = Qmult c <$> px a y x.
Proof. apply px_map_map. Qed.

(** *** Temporal filter *)

Lemma apply_temporal_filter_pixelwise (c : Config) (new_depth prev_filtered : DepthMap) h w :
  has_dims h w new_depth → has_dims h w prev_filtered →
  ∃ out, apply_temporal_filter c new_depth prev_filtered = Ok out ∧
    has_dims h w out ∧
    ∀ y x p n, px prev_filtered y x = Some p → px new_depth y x = Some n →
      px out y x = Some (TEMPORAL_ALPHA c * p + (1 - TEMPORAL_ALPHA c) * n)%Q.
Proof.
  intros Hn Hp. unfold apply_temporal_filter, np_add.
  destruct (np_binop_same_dims Qplus
              (np_scale (TEMPORAL_ALPHA c) prev_filtered)
              (np_scale (1 - TEMPORAL_ALPHA c)%Q new_depth) h w)
    as (out & Hout & Hdims & Hpx); [by apply np_scale_dims..|].
  exists out. repeat split; [done| apply Hdims | apply Hdims |].
  intros y x p n Hpp Hpn. apply Hpx; rewrite px_np_scale.
  - by rewrite Hpp.
  - by rewrite Hpn.
Qed.

(** A convex combination of two rationals lies between them. *)
Lemma convex_between (a p n : Q) :
  (0 < a)%Q → (a < 1)%Q →
  (Qmin p n <= a * p + (1 - a) * n)%Q ∧ (a * p + (1 - a) * n <= Qmax p n)%Q.
Proof.
  intros H0 H1.
  destruct (Qlt_le_dec p n) as [Hpn|Hnp].
  - apply Qlt_le_weak in Hpn.
    rewrite (Q.min_l _ _ Hpn), (Q.max_r _ _ Hpn). split; nra.
  - rewrite (Q.min_r _ _ Hnp), (Q.max_l _ _ Hnp). split; nra.
Qed.

(** *** Scheduling *)

Lemma schedule_Ok {D} (c : Config) (i : Z) (pd : option D) :
  FRAME_SKIP c ≠ 0 →
  schedule c i pd =
    Ok (if (i mod FRAME_SKIP c =? 0) || is_None pd then INFER else PROPAGATE).
Proof.
  intros Hk. unfold schedule, py_mod.
  by destruct (Z.eqb_spec (FRAME_SKIP c) 0).
Qed.

Lemma is_None_true {A} (x : option A) : is_None x = true ↔ x = None.
Proof. by destruct x. Qed.

(** *** The loop body, stage by stage *)

Lemma process_frame_eq (s : State) (frame : Frame) :
  process_frame s frame =
  match cvtColor_BGR2GRAY frame with
  | Raise e => (s, Raise e)
  | Ok gray =>
    match schedule cfg (frame_count s) (prev_depth s) with
    | Raise e => (s, Raise e)
    | Ok d =>
      match raw_depth s frame with
      | Raise e => (s, Raise e)
      | Ok raw =>
        let s1 := match d with
                  | INFER => mkState (frame_count s) (prev_gray s) (Some raw)
                               (filtered_depth s)
                  | PROPAGATE => s
                  end in
        match temporal_smoothing cfg raw (filtered_depth s) with
        | Raise e => (s1, Raise e)
        | Ok out =>
          match display out with
          | Raise e =>
              (mkState (frame_count s1) (prev_gray s1) (prev_depth s1) (Some out),
               Raise e)
          | Ok _ =>
              (mkState (frame_count s + 1) (Some gray) (Some raw) (Some out), Ok out)
          end
        end
      end
    end
  end.
Proof.
  unfold process_frame, loop_body, raw_depth, bind, lift, get, ret.
  destruct (cvtColor_BGR2GRAY frame) as [gray|e]; [|done].
  destruct (schedule cfg (frame_count s) (prev_depth s)) as [[|]|e]; [| |done].
  - destruct (estimate_depth_midas frame) as [raw|e]; [|done].
    unfold set_prev_depth at 1. cbn [filtered_depth].
    destruct (temporal_smoothing cfg raw (filtered_depth s)) as [out|e]; [|done].
    unfold set_filtered_depth. cbn.
    by destruct (display out).
  - destruct (cv2_image (prev_gray s)) as [pg|e]; [|done].
    destruct (cv2_image (prev_depth s)) as [pd|e]; [|done].
    destruct (propagate_depth_optical_flow pg gray pd) as [raw|e]; [|done].
    destruct (temporal_smoothing cfg raw (filtered_depth s)) as [out|e]; [|done].
    unfold set_filtered_depth. cbn.
    by destruct (display out).
Qed.

(** The raw depth does not read [filtered_depth]. *)
Lemma raw_depth_ignores_filtered (s : State) (frame : Frame) (fd : option DepthMap) :
  raw_depth (mkState (frame_count s) (prev_gray s) (prev_depth s) fd) frame
  = raw_depth s frame.
Proof. done. Qed.

(** *** Claims on the scheduling and on the state *)

(** C1. For every frame index and every state of [prev_depth], the loop takes
    the inference branch exactly when [frame_count % FRAME_SKIP == 0] or
    [prev_depth] is [None], and the propagation branch otherwise; with
    [FRAME_SKIP = 1] it infers on every frame. *)
Theorem schedule_rule {D} (c : Config) (i : Z) (pd : option D) :
  0 < FRAME_SKIP c →
  (schedule c i pd = Ok INFER ↔ i mod FRAME_SKIP c = 0 ∨ pd = None) ∧
  (schedule c i pd = Ok PROPAGATE ↔ ¬ (i mod FRAME_SKIP c = 0 ∨ pd = None)) ∧
  (FRAME_SKIP c = 1 → schedule c i pd = Ok INFER).
Proof.
  intros Hk. rewrite schedule_Ok by lia.
  assert (Hb : (i mod FRAME_SKIP c =? 0) || is_None pd = true
               ↔ i mod FRAME_SKIP c = 0 ∨ pd = None).
  { rewrite orb_true_iff, Z.eqb_eq, is_None_true. done. }
  destruct ((i mod FRAME_SKIP c =? 0) || is_None pd) eqn:Hc.
  - split; [|split].
    + split; [intros _; by apply Hb | done].
    + split; [done | intros Hn; destruct Hn; by apply Hb].
    + done.
  - assert (Hn : ¬ (i mod FRAME_SKIP c = 0 ∨ pd = None)).
    { intros H. apply Hb in H. done. }
    split; [|split].
    + split; [done | intros H; by destruct Hn].
    + split; [done | done].
    + intros H1. destruct Hn. left. rewrite H1. apply Z.mod_1_r.
Qed.

(** C3. While [filtered_depth] is [None] the smoothing branch returns the
    new depth map itself: the frame's output is its raw depth map, and that
    map is what the loop stores as [filtered_depth]. *)
Theorem temporal_smoothing_init (s : State) (frame : Frame) :
  (∀ c (d : DepthMap), temporal_smoothing c d None = Ok d) ∧
  (∀ s' out, filtered_depth s = None →
     process_frame s frame = (s', Ok out) →
     raw_depth s frame = Ok out ∧ filtered_depth s' = Some out).
Proof.
  split; [done|]. intros s' out Hf. rewrite process_frame_eq, Hf.
  destruct (cvtColor_BGR2GRAY frame) as [gray|e]; [|done].
  destruct (schedule cfg (frame_count s) (prev_depth s)) as [d|e]; [|done].
  destruct (raw_depth s frame) as [raw|e]; [|done]. cbn.
  destruct (display raw); [|done]. intros [= <- <-]. done.
Qed.

(** C5. After a frame that was processed without an exception, on either
    branch, [prev_gray] is the frame's grey image, [prev_depth] is the
    frame's raw depth map (the value of [depth_map] before smoothing),
    [filtered_depth] is the smoothed map that was shown, and [frame_count]
    has grown by one. The raw depth map is computed without reading
    [filtered_depth]. *)
Theorem state_update (s : State) (frame : Frame) (s' : State) (out : DepthMap) :
  process_frame s frame = (s', Ok out) →
  ∃ gray raw,
    cvtColor_BGR2GRAY frame = Ok gray ∧
    raw_depth s frame = Ok raw ∧
    (schedule cfg (frame_count s) (prev_depth s) = Ok INFER →
       estimate_depth_midas frame = Ok raw) ∧
    (schedule cfg (frame_count s) (prev_depth s) = Ok PROPAGATE →
       ∃ pg pd, prev_gray s = Some pg ∧ prev_depth s = Some pd ∧
         propagate_depth_optical_flow pg gray pd = Ok raw) ∧
    temporal_smoothing cfg raw (filtered_depth s) = Ok out ∧
    s' = {| frame_count := frame_count s + 1; prev_gray := Some gray;
            prev_depth := Some raw; filtered_depth := Some out |} ∧
    (∀ fd, raw_depth (mkState (frame_count s) (prev_gray s) (prev_depth s) fd) frame
           = Ok raw).
Proof.
  rewrite process_frame_eq. unfold raw_depth.
  destruct (cvtColor_BGR2GRAY frame) as [gray|e]; [|done].
  destruct (schedule cfg (frame_count s) (prev_depth s)) as [d|e] eqn:Hd; [|done].
  cbn [frame_count prev_depth prev_gray]. rewrite Hd.
  destruct d.
  - destruct (estimate_depth_midas frame) as [raw|e] eqn:He; [|done]. cbn zeta.
    destruct (temporal_smoothing cfg raw (filtered_depth s)) as [o|e] eqn:Ht; [|done].
    destruct (display o); [|done]. intros [= <- <-].
    exists gray, raw. repeat split; done.
  - destruct (prev_gray s) as [pg|]; [|done].
    destruct (prev_depth s) as [pd|]; [|done]. cbn [cv2_image].
    destruct (propagate_depth_optical_flow pg gray pd) as [raw|e] eqn:Hp; [|done].
    cbn zeta.
    destruct (temporal_smoothing cfg raw (filtered_depth s)) as [o|e] eqn:Ht; [|done].
    destruct (display o); [|done]. intros [= <- <-].
    exists gray, raw. repeat split; try done.
    intros _. by exists pg, pd.
Qed.

(** C8. Two grey images of different sizes are refused by the flow
    estimator's opening assertion, whatever the solver would compute: no
    flow field comes back, and the propagation raises the same error
    instead of returning a depth map. *)
Theorem flow_rejects_size_mismatch (prev next : GrayFrame) :
  shape prev ≠ shape next →
  calcOpticalFlowFarneback prev next = Raise cv2_error ∧
  ∀ pd, propagate_depth_optical_flow prev next pd = Raise cv2_error.
Proof.
  intros Hne.
  assert (H : calcOpticalFlowFarneback prev next = Raise cv2_error).
  { unfold calcOpticalFlowFarneback. by rewrite bool_decide_eq_false_2. }
  split; [done|]. intros pd. unfold propagate_depth_optical_flow. by rewrite H.
Qed.

(** C7, as the loop has it. An exception raised while the grey image, the
    decision or the raw depth map is computed (a failed inference, or a size
    mismatch on a frame scheduled for propagation) reaches the caller with
    the four state variables as they were. An exception raised by the
    smoothing reaches the caller with [prev_gray], [filtered_depth] and
    [frame_count] as they were, and with the whole state as it was on a frame
    scheduled for propagation. Whatever raises, the display included,
    [prev_gray] and [frame_count] are as they were, and so is [prev_depth] on
    a frame scheduled for propagation. *)
Theorem failure_keeps_state (s : State) (frame : Frame) :
  (∀ e, raw_depth s frame = Raise e → process_frame s frame = (s, Raise e)) ∧
  (∀ e, schedule cfg (frame_count s) (prev_depth s) = Ok INFER →
     estimate_depth_midas frame = Raise e →
     process_frame s frame = (s, Raise e)) ∧
  (∀ gray pg pd,
     cvtColor_BGR2GRAY frame = Ok gray →
     schedule cfg (frame_count s) (prev_depth s) = Ok PROPAGATE →
     prev_gray s = Some pg → prev_depth s = Some pd →
     shape pg ≠ shape gray →
     process_frame s frame = (s, Raise cv2_error)) ∧
  (∀ s' e, process_frame s frame = (s', Raise e) →
     frame_count s' = frame_count s ∧ prev_gray s' = prev_gray s ∧
     (schedule cfg (frame_count s) (prev_depth s) = Ok PROPAGATE →
        prev_depth s' = prev_depth s)) ∧
  (∀ raw e, raw_depth s frame = Ok raw →
     temporal_smoothing cfg raw (filtered_depth s) = Raise e →
     ∃ s', process_frame s frame = (s', Raise e) ∧
       frame_count s' = frame_count s ∧ prev_gray s' = prev_gray s ∧
       filtered_depth s' = filtered_depth s ∧
       (schedule cfg (frame_count s) (prev_depth s) = Ok PROPAGATE → s' = s)).
Proof.
  assert (H1 : ∀ e, raw_depth s frame = Raise e →
                    process_frame s frame = (s, Raise e)).
  { intros e. rewrite process_frame_eq. unfold raw_depth.
    destruct (cvtColor_BGR2GRAY frame) as [gray|e']; [|by intros [= ->]].
    destruct (schedule cfg (frame_count s) (prev_depth s)) as [d|e'];
      [|by intros [= ->]].
    by intros ->. }
  split; [done|]. split; [|split; [|split]].
  - intros e Hd He. apply H1. unfold raw_depth. rewrite Hd.
    unfold estimate_depth_midas, cvtColor_BGR2RGB, cvtColor_BGR2GRAY in *.
    by destruct (is_empty frame).
  - intros gray pg pd Hg Hd Hpg Hpd Hne. apply H1. unfold raw_depth.
    rewrite Hg, Hd, Hpg, Hpd. cbn.
    unfold propagate_depth_optical_flow, calcOpticalFlowFarneback.
    by rewrite bool_decide_eq_false_2.
  - intros s' e. rewrite process_frame_eq.
    destruct (cvtColor_BGR2GRAY frame) as [gray|e']; [|by intros [= <- _]].
    destruct (schedule cfg (frame_count s) (prev_depth s)) as [d|e'];
      [|by intros [= <- _]].
    destruct (raw_depth s frame) as [raw|e']; [|by intros [= <- _]].
    cbn zeta.
    destruct (temporal_smoothing cfg raw (filtered_depth s)) as [o|e'].
    + destruct (display o); [done|]. intros [= <- _]. by destruct d.
    + intros [= <- _]. by destruct d.
  - intros raw e Hraw Hsm. rewrite process_frame_eq, Hraw. unfold raw_depth in Hraw.
    destruct (cvtColor_BGR2GRAY frame) as [gray|e']; [|done].
    destruct (schedule cfg (frame_count s) (prev_depth s)) as [d|e']; [|done].
    cbn zeta. rewrite Hsm. eexists. split; [done|]. by destruct d.
Qed.

(** *** Border extrapolation *)

Lemma in_range_spec p len : in_range p len = true ↔ 0 <= p < len.
Proof. unfold in_range. rewrite andb_true_iff, Z.leb_le, Z.ltb_lt. done. Qed.

(** How far [p] lies outside [0 .. len - 1]. *)
Lemma reflect_loop_in_range (fuel : nat) : ∀ p len,
  0 < len → in_range p len = false →
  (if p <? 0 then - p else p - len + 1) <= Z.of_nat fuel * len →
  in_range (reflect_loop fuel p len) len = true.
Proof.
  induction fuel as [|k IH]; intros p len Hlen Hout Hd.
  - exfalso. assert (¬ (0 <= p < len)) by (rewrite <- in_range_spec, Hout; done).
    destruct (Z.ltb_spec p 0); lia.
  - cbn [reflect_loop].
    assert (Hp : ¬ (0 <= p < len)) by (rewrite <- in_range_spec, Hout; done).
    set (p' := if p <? 0 then - p - 1 else len - 1 - (p - len)).
    destruct (in_range p' len) eqn:Hin; [done|].
    assert (Hp' : ¬ (0 <= p' < len)) by (rewrite <- in_range_spec, Hin; done).
    apply IH; [done..|]. subst p'.
    destruct (Z.ltb_spec p 0).
    + destruct (Z.ltb_spec (- p - 1) 0); lia.
    + destruct (Z.ltb_spec (len - 1 - (p - len)) 0); lia.
Qed.

(** [BORDER_REFLECT] brings every index into the range, leaves an index of
    the range alone, and mirrors the first [len] indices on each side about
    the edge they crossed. *)
Lemma borderInterpolate_reflect (p len : Z) :
  0 < len →
  0 <= borderInterpolate p len BORDER_REFLECT < len ∧
  (0 <= p < len → borderInterpolate p len BORDER_REFLECT = p) ∧
  (- len <= p < 0 → borderInterpolate p len BORDER_REFLECT = - p - 1) ∧
  (len <= p < 2 * len → borderInterpolate p len BORDER_REFLECT = 2 * len - 1 - p).
Proof.
  intros Hlen. unfold borderInterpolate.
  destruct (in_range p len) eqn:Hin.
  - apply in_range_spec in Hin. repeat split; lia.
  - assert (Hp : ¬ (0 <= p < len)) by (rewrite <- in_range_spec, Hin; done).
    destruct (Z.eqb_spec len 1) as [->|Hne].
    { repeat split; lia. }
    split; [|split; [|split]].
    + apply in_range_spec, reflect_loop_in_range; [done..|].
      destruct (Z.ltb_spec p 0); nia.
    + lia.
    + intros Hr. cbn [reflect_loop].
      destruct (Z.ltb_spec p 0); [|lia].
      assert (in_range (- p - 1) len = true) as -> by (apply in_range_spec; lia).
      done.
    + intros Hr. cbn [reflect_loop].
      destruct (Z.ltb_spec p 0); [lia|].
      assert (in_range (len - 1 - (p - len)) len = true) as ->
        by (apply in_range_spec; lia).
      lia.
Qed.

Lemma border_px_inside (src : Array2 Q) (b : BorderMode) h w y x v :
  has_dims h w src → px src y x = Some v →
  border_px src b (Z.of_nat y) (Z.of_nat x) = v.
Proof.
  intros Hd Hpx. destruct (px_lt _ _ _ _ _ _ Hd Hpx) as [Hy Hx].
  unfold border_px. rewrite (shape_dims h w) by (done || lia).
  unfold borderInterpolate.
  assert (in_range (Z.of_nat y) (Z.of_nat h) = true) as ->
    by (apply in_range_spec; lia).
  assert (in_range (Z.of_nat x) (Z.of_nat w) = true) as ->
    by (apply in_range_spec; lia).
  destruct (Z.ltb_spec (Z.of_nat y) 0); [lia|].
  destruct (Z.ltb_spec (Z.of_nat x) 0); [lia|]. cbn.
  rewrite !Nat2Z.id. by apply get2_px.
Qed.








(** *** Rounding of the sampling point *)

Lemma cvRound_Z (q : Q) (z : Z) : (q == inject_Z z)%Q → cvRound q = z.
Proof.
  intros Hq. unfold cvRound.
  assert (Qfloor q = z) as -> by (rewrite Hq; apply Qfloor_Z).
  assert ((q - inject_Z z ?= 1 # 2)%Q = Lt) as ->; [|done].
  apply Qlt_alt. rewrite Hq. unfold Qminus. rewrite Qplus_opp_r. reflexivity.
Qed.


(** At a point with integer coordinates the remap returns the pixel there:
    the fixed-point fractions are 0 and the weights 1, 0, 0 and 0. *)
Lemma remap_px_at_integer (src : Array2 Q) (b : BorderMode) (u v : Q) (iu iv : Z) :
  (u == inject_Z iu)%Q → (v == inject_Z iv)%Q →
  (remap_px src b u v == border_px src b iv iu)%Q.
Proof.
  intros Hu Hv. unfold remap_px.
  assert (cvRound (u * 32) = iu * 32) as ->.
  { apply cvRound_Z. rewrite Hu, inject_Z_mult. done. }
  assert (cvRound (v * 32) = iv * 32) as ->.
  { apply cvRound_Z. rewrite Hv, inject_Z_mult. done. }
  rewrite !Z.shiftr_div_pow2 by lia. change (2 ^ 5) with 32.
  rewrite !Z.div_mul by lia.
  change 31 with (Z.ones 5). rewrite !Z.land_ones by lia. change (2 ^ 5) with 32.
  rewrite !Z.mod_mul by lia. cbv zeta.
  assert (H0 : (inject_Z 0 / 32 == 0)%Q) by reflexivity.
  rewrite H0. ring.
Qed.


(** *** The sampling grid and the warp *)

Lemma meshgrid_dims h w :
  has_dims h w (np_meshgrid_xy (np_arange w) (np_arange h)).1 ∧
  has_dims h w (np_meshgrid_xy (np_arange w) (np_arange h)).2.
Proof.
  unfold np_meshgrid_xy, np_arange, has_dims. cbn [fst snd].
  rewrite !length_map, !length_seq. repeat split.
  - apply Forall_forall. intros r Hr.
    apply list_elem_of_In, in_map_iff in Hr as (y & <- & _).
    by rewrite length_map, length_seq.
  - apply Forall_forall. intros r Hr.
    apply list_elem_of_In, in_map_iff in Hr as (y & <- & _).
    by rewrite !length_map, length_seq.
Qed.

(** With [indexing='xy'] the first grid holds the column index and the
    second the row index. *)
Lemma px_meshgrid h w y x :
  (y < h)%nat → (x < w)%nat →
  px (np_meshgrid_xy (np_arange w) (np_arange h)).1 y x = Some (Z.of_nat x) ∧
  px (np_meshgrid_xy (np_arange w) (np_arange h)).2 y x = Some (Z.of_nat y).
Proof.
  intros Hy Hx. unfold np_meshgrid_xy, np_arange, px. cbn [fst snd].
  rewrite !lookup_map, !lookup_seq_lt by done. cbn.
  rewrite !lookup_map, !lookup_seq_lt by done. done.
Qed.

Lemma cv2_remap_linear_px (src map_x map_y : Array2 Q) (b : BorderMode) h w H W :
  (0 < h)%nat → (0 < w)%nat → (0 < H)%nat → (0 < W)%nat →
  has_dims H W src → has_dims h w map_x → has_dims h w map_y →
  ∃ out, cv2_remap_linear src map_x map_y b = Ok out ∧ has_dims h w out ∧
    ∀ y x u v, px map_x y x = Some u → px map_y y x = Some v →
      px out y x = Some (remap_px src b u v).
Proof.
  intros Hh Hw HH HW Hs Hx Hy. unfold cv2_remap_linear.
  rewrite (shape_dims h w map_x), (shape_dims H W src),
    (shape_dims h w map_y) by done.
  destruct (Nat.eqb_spec h 0), (Nat.eqb_spec w 0), (Nat.eqb_spec H 0),
    (Nat.eqb_spec W 0); try lia. cbn [orb].
  rewrite bool_decide_eq_true_2 by done. cbn [negb].
  eexists. split; [done|]. split; [apply tabulate_dims|].
  intros y x u v Hu Hv.
  destruct (px_lt _ _ _ _ _ _ Hx Hu) as [Hyh Hxw].
  rewrite px_tabulate by done.
  by rewrite (get2_px _ _ _ _ _ Hu), (get2_px _ _ _ _ _ Hv).
Qed.

(** The warp samples [prev_depth], pixel by pixel, at the pixel's own
    coordinates displaced by the flow. *)
Lemma warp_depth_px (flow : FlowField) (pd : DepthMap) h w H W :
  (0 < h)%nat → (0 < w)%nat → (0 < H)%nat → (0 < W)%nat →
  has_dims h w flow → has_dims H W pd →
  ∃ out, warp_depth flow pd = Ok out ∧ has_dims h w out ∧
    ∀ y x f, px flow y x = Some f →
      px out y x =
        Some (remap_px pd BORDER_REFLECT
                (inject_Z (Z.of_nat x) + f.1) (inject_Z (Z.of_nat y) + f.2)).
Proof.
  intros Hh Hw HH HW Hf Hp. unfold warp_depth.
  rewrite (shape_dims h w flow) by done.
  destruct (meshgrid_dims h w) as [Hgx Hgy].
  destruct (np_meshgrid_xy (np_arange w) (np_arange h)) as [gx gy] eqn:Hg.
  cbn [fst snd] in Hgx, Hgy. unfold np_add.
  destruct (np_binop_same_dims Qplus (map (map inject_Z) gx) (map (map fst) flow) h w)
    as (rx & -> & Hrx & Hpx); [by apply map_map_dims..|].
  destruct (np_binop_same_dims Qplus (map (map inject_Z) gy) (map (map snd) flow) h w)
    as (ry & -> & Hry & Hpy); [by apply map_map_dims..|].
  destruct (cv2_remap_linear_px pd rx ry BORDER_REFLECT h w H W)
    as (out & -> & Hout & Hpo); [done..|].
  exists out. split; [done|]. split; [done|].
  intros y x f Hfl.
  destruct (px_lt _ _ _ _ _ _ Hf Hfl) as [Hy Hx].
  destruct (px_meshgrid h w y x Hy Hx) as [Hmx Hmy]. rewrite Hg in Hmx, Hmy.
  cbn [fst snd] in Hmx, Hmy.
  apply Hpo.
  - apply Hpx; rewrite px_map_map; [by rewrite Hmx | by rewrite Hfl].
  - apply Hpy; rewrite px_map_map; [by rewrite Hmy | by rewrite Hfl].
Qed.



(** C9. With a flow that is zero everywhere, the warp of a depth map of the
    flow's size returns that depth map: every pixel of the result is the
    pixel of [prev_depth] at the same place (the same rational number). *)
Theorem warp_zero_flow_identity (flow : FlowField) (pd : DepthMap) h w :
  (0 < h)%nat → (0 < w)%nat →
  has_dims h w flow → has_dims h w pd →
  (∀ y x f, px flow y x = Some f → f = (0%Q, 0%Q)) →
  ∃ out, warp_depth flow pd = Ok out ∧ has_dims h w out ∧
    ∀ y x v, px pd y x = Some v →
      ∃ v', px out y x = Some v' ∧ (v' == v)%Q.
Proof.
  intros Hh Hw Hf Hp Hzero.
  destruct (warp_depth_px flow pd h w h w) as (out & Hout & Hdims & Hpx); [done..|].
  exists out. split; [done|]. split; [done|].
  intros y x v Hv.
  destruct (px_lt _ _ _ _ _ _ Hp Hv) as [Hy Hx].
  destruct (px_is_Some h w flow y x) as [f Hfl]; [done..|].
  rewrite (Hpx _ _ _ Hfl). rewrite (Hzero _ _ _ Hfl). cbn [fst snd].
  eexists. split; [done|].
  rewrite (remap_px_at_integer pd BORDER_REFLECT _ _ (Z.of_nat x) (Z.of_nat y))
    by ring.
  by rewrite (border_px_inside pd BORDER_REFLECT h w y x v).
Qed.

(** *** Sizes along a stream *)







(** *** The loop does not raise on a stream of one size *)







(** *** Claims on the temporal filter *)

(** C2, in exact arithmetic and as [float32] evaluates it. On a new depth
    map and a previous filtered map of one size the filter returns a map of
    that size whose every pixel is, in exact arithmetic,
    [TEMPORAL_ALPHA * prev_filtered + (1 - TEMPORAL_ALPHA) * new_depth] at
    that pixel; the notebook sets [TEMPORAL_ALPHA] to 0.9, which lies
    strictly between 0 and 1. On [float32] arrays every pixel is the same
    expression with the weights [15099494 * 2^-24] and [13421773 * 2^-27]
    (0.9 and 1 - 0.9 rounded to [float32]) and with each product and the sum
    rounded to [float32]. *)
Theorem temporal_filter_formula (c : Config) (new_depth prev_filtered : DepthMap) h w :
  has_dims h w new_depth → has_dims h w prev_filtered →
  (∃ out,
     apply_temporal_filter c new_depth prev_filtered = Ok out ∧
     temporal_smoothing c new_depth (Some prev_filtered) = Ok out ∧
     has_dims h w out ∧
     ∀ y x, (y < h)%nat → (x < w)%nat →
       ∃ p n, px prev_filtered y x = Some p ∧ px new_depth y x = Some n ∧
         px out y x = Some (TEMPORAL_ALPHA c * p + (1 - TEMPORAL_ALPHA c) * n)%Q) ∧
  TEMPORAL_ALPHA default_config = (9 # 10)%Q ∧
  (0 < TEMPORAL_ALPHA default_config)%Q ∧ (TEMPORAL_ALPHA default_config < 1)%Q ∧
  (∀ (new32 prev32 : Array2 SpecFloat.spec_float) y x p n,
     px prev32 y x = Some p → px new32 y x = Some n →
     px (Binary32.apply_temporal_filter new32 prev32) y x
     = Some (Binary32.float32_add
               (Binary32.float32_mul (SpecFloat.S754_finite false 15099494 (-24)) p)
               (Binary32.float32_mul (SpecFloat.S754_finite false 13421773 (-27)) n))).
Proof.
  intros Hn Hp. split; [|split; [done|split; [done|split; [done|]]]].
  - destruct (apply_temporal_filter_pixelwise c new_depth prev_filtered h w)
      as (out & Hout & Hdims & Hpx); [done..|].
    exists out. repeat split; [done | done | apply Hdims | apply Hdims |].
    intros y x Hy Hx.
    destruct (px_is_Some h w prev_filtered y x) as [p Hpp]; [done..|].
    destruct (px_is_Some h w new_depth y x) as [n Hpn]; [done..|].
    exists p, n. repeat split; [done..|]. by apply Hpx.
  - intros new32 prev32 y x p n. unfold px, Binary32.apply_temporal_filter.
    rewrite lookup_zip_with.
    destruct (prev32 !! y) as [rp|]; [|done].
    destruct (new32 !! y) as [rn|]; [|done]. cbn.
    rewrite lookup_zip_with. intros -> ->. done.
Qed.

(** C10, in exact arithmetic. For every [TEMPORAL_ALPHA] strictly between 0
    and 1 and two maps of one size, every pixel of the filter's result, as a
    rational number, lies between the smaller and the larger of the two
    inputs at that pixel. *)
Theorem temporal_filter_convex (c : Config) (new_depth prev_filtered : DepthMap) h w :
  (0 < TEMPORAL_ALPHA c)%Q → (TEMPORAL_ALPHA c < 1)%Q →
  has_dims h w new_depth → has_dims h w prev_filtered →
  ∃ out,
    apply_temporal_filter c new_depth prev_filtered = Ok out ∧
    ∀ y x, (y < h)%nat → (x < w)%nat →
      ∃ p n o, px prev_filtered y x = Some p ∧ px new_depth y x = Some n ∧
        px out y x = Some o ∧ (Qmin p n <= o)%Q ∧ (o <= Qmax p n)%Q.
Proof.
  intros H0 H1 Hn Hp.
  destruct (apply_temporal_filter_pixelwise c new_depth prev_filtered h w)
    as (out & Hout & Hdims & Hpx); [done..|].
  exists out. split; [done|].
  intros y x Hy Hx.
  destruct (px_is_Some h w prev_filtered y x) as [p Hpp]; [done..|].
  destruct (px_is_Some h w new_depth y x) as [n Hpn]; [done..|].
  exists p, n, (TEMPORAL_ALPHA c * p + (1 - TEMPORAL_ALPHA c) * n)%Q.
  split; [done|]. split; [done|]. split; [by apply Hpx|].
  by apply convex_between.
Qed.

(** *** The filter in [float32] *)

(** The double taken for 0.9 is within half a unit in the last place of
    nine tenths. *)
Lemma binary64_TEMPORAL_ALPHA :
  (Qabs (Binary32.to_Q Binary32.TEMPORAL_ALPHA - (9 # 10)) <= 1 # (2 ^ 54))%Q.
Proof. vm_compute. discriminate. Qed.

(** The two weights NumPy multiplies by. *)
Lemma float32_weights :
  Binary32.astype_float32 Binary32.TEMPORAL_ALPHA
    = SpecFloat.S754_finite false 15099494 (-24) ∧
  Binary32.astype_float32 (Binary32.float64_sub Binary32.one Binary32.TEMPORAL_ALPHA)
    = SpecFloat.S754_finite false 13421773 (-27).
Proof. by vm_compute. Qed.

(** *** Progress of the loop along a stream *)

Lemma process_frame_Ok_state (s s' : State) (frame : Frame) (out : DepthMap) :
  process_frame s frame = (s', Ok out) →
  frame_count s' = frame_count s + 1 ∧
  is_Some (prev_gray s') ∧ is_Some (prev_depth s') ∧
  filtered_depth s' = Some out.
Proof.
  rewrite process_frame_eq.
  destruct (cvtColor_BGR2GRAY frame) as [gray|e]; [|done].
  destruct (schedule cfg (frame_count s) (prev_depth s)) as [d|e]; [|done].
  destruct (raw_depth s frame) as [raw|e]; [|done]. cbn zeta.
  destruct (temporal_smoothing cfg raw (filtered_depth s)) as [o|e]; [|done].
  destruct (display o); [|done]. intros [= <- <-]. cbn. eauto.
Qed.

Lemma run_progress_aux (frames : list Frame) : ∀ s s' outs,
  run s frames = (s', Ok outs) →
  frame_count s' = frame_count s + Z.of_nat (length frames) ∧
  length outs = length frames ∧
  (frames ≠ [] →
     is_Some (prev_gray s') ∧ is_Some (prev_depth s') ∧
     filtered_depth s' = last outs).
Proof.
  induction frames as [|f rest IH]; intros s s' outs; cbn [run].
  - intros [= <- <-]. split; [cbn; lia|]. split; [done|]. done.
  - destruct (process_frame s f) as [s1 [o|e]] eqn:Hp; [|done].
    destruct (run s1 rest) as [s2 [os|e]] eqn:Hr; [|done].
    intros [= <- <-].
    destruct (process_frame_Ok_state _ _ _ _ Hp) as (Hc & Hg & Hd & Hf).
    destruct (IH _ _ _ Hr) as (Hc2 & Hlen & Hne).
    split; [cbn [length]; lia|]. split; [cbn; by rewrite Hlen|].
    intros _. destruct rest as [|f2 rest].
    + cbn in Hr. injection Hr as <- <-. done.
    + destruct Hne as (? & ? & Hl); [done|].
      split; [done|]. split; [done|].
      rewrite Hl. destruct os as [|o2 os]; [done|]. done.
Qed.

(** X1. After [n] frames processed without an exception, [frame_count] has
    grown by [n], one map was produced per frame and, when [n] is not zero,
    [prev_gray] and [prev_depth] are set and [filtered_depth] is the last map
    produced. *)
Theorem run_progress (frames : list Frame) (s s' : State) (outs : list DepthMap) :
  run s frames = (s', Ok outs) →
  frame_count s' = frame_count s + Z.of_nat (length frames) ∧
  length outs = length frames ∧
  (frames ≠ [] →
     is_Some (prev_gray s') ∧ is_Some (prev_depth s') ∧
     filtered_depth s' = last outs).
Proof. apply run_progress_aux. Qed.

(** X2. Along a stream started from the initial assignments, with a positive
    [FRAME_SKIP], the frame that follows [n] processed frames is inferred
    when [n] is a multiple of [FRAME_SKIP] and propagated otherwise. *)
Theorem schedule_along_stream (frames : list Frame) (s' : State) (outs : list DepthMap) :
  0 < FRAME_SKIP cfg →
  run initial_state frames = (s', Ok outs) →
  schedule cfg (frame_count s') (prev_depth s')
  = Ok (if Z.of_nat (length frames) mod FRAME_SKIP cfg =? 0
        then INFER else PROPAGATE).
Proof.
  intros Hk Hrun. rewrite schedule_Ok by lia.
  destruct (run_progress_aux _ _ _ _ Hrun) as (Hc & _ & Hne).
  cbn in Hc. rewrite Hc.
  destruct frames as [|f rest].
  - cbn in Hrun. injection Hrun as <- <-. done.
  - destruct Hne as (_ & [pd Hpd] & _); [done|]. rewrite Hpd. cbn [is_None].
    by rewrite orb_false_r.
Qed.

(** X3. With [FRAME_SKIP] set to zero every non-empty frame raises
    [ZeroDivisionError], the first one included (the remainder is evaluated
    before [prev_depth is None]), and the state is left as it was. *)
Theorem zero_frame_skip_raises (s : State) (frame : Frame) :
  FRAME_SKIP cfg = 0 → is_empty frame = false →
  process_frame s frame = (s, Raise ZeroDivisionError).
Proof.
  intros Hk He. rewrite process_frame_eq. unfold cvtColor_BGR2GRAY.
  rewrite He. unfold schedule, py_mod. by rewrite Hk.
Qed.

(** *** The filter on maps of different sizes *)

Lemma broadcast_len_spec (n m : nat) :
  (0 < n)%nat → (0 < m)%nat →
  broadcast_len n m =
    if bool_decide (n ≠ m ∧ n ≠ 1%nat ∧ m ≠ 1%nat) then None else Some (Nat.max n m).
Proof.
  intros Hn Hm. unfold broadcast_len.
  destruct (Nat.eqb_spec n m) as [->|Hne].
  - rewrite bool_decide_eq_false_2 by (by intros [? _]). by rewrite Nat.max_id.
  - destruct (Nat.eqb_spec n 1) as [->|Hn1].
    + rewrite bool_decide_eq_false_2 by (by intros (_ & ? & _)). f_equal. lia.
    + destruct (Nat.eqb_spec m 1) as [->|Hm1].
      * rewrite bool_decide_eq_false_2 by (by intros (_ & _ & ?)). f_equal. lia.
      * by rewrite bool_decide_eq_true_2.
Qed.

(** X4. On two non-empty maps the filter raises [ValueError] exactly when, on
    some axis, the two lengths differ and neither is 1; otherwise it returns
    a map whose size is, on each axis, the larger of the two lengths: a map
    with an axis of length 1 is stretched along it without an error. *)
Theorem temporal_filter_broadcast (c : Config) (new_depth prev_filtered : DepthMap)
    hn wn hp wp :
  (0 < hn)%nat → (0 < wn)%nat → (0 < hp)%nat → (0 < wp)%nat →
  has_dims hn wn new_depth → has_dims hp wp prev_filtered →
  ((hp ≠ hn ∧ hp ≠ 1%nat ∧ hn ≠ 1%nat) ∨ (wp ≠ wn ∧ wp ≠ 1%nat ∧ wn ≠ 1%nat) →
     apply_temporal_filter c new_depth prev_filtered = Raise ValueError) ∧
  (¬ ((hp ≠ hn ∧ hp ≠ 1%nat ∧ hn ≠ 1%nat) ∨ (wp ≠ wn ∧ wp ≠ 1%nat ∧ wn ≠ 1%nat)) →
     ∃ out, apply_temporal_filter c new_depth prev_filtered = Ok out ∧
       has_dims (Nat.max hp hn) (Nat.max wp wn) out).
Proof.
  intros Hhn Hwn Hhp Hwp Hn Hp.
  unfold apply_temporal_filter, np_add, np_binop.
  rewrite (shape_dims hp wp (np_scale _ prev_filtered))
    by (by apply np_scale_dims || done).
  rewrite (shape_dims hn wn (np_scale _ new_depth))
    by (by apply np_scale_dims || done).
  rewrite (broadcast_len_spec hp hn), (broadcast_len_spec wp wn) by done.
  split.
  - intros [H|H].
    + by rewrite (bool_decide_eq_true_2 _ H).
    + rewrite (bool_decide_eq_true_2 _ H). by destruct (bool_decide _).
  - intros H.
    rewrite (bool_decide_eq_false_2 (hp ≠ hn ∧ _)) by (intros ?; apply H; by left).
    rewrite (bool_decide_eq_false_2 (wp ≠ wn ∧ _)) by (intros ?; apply H; by right).
    eexists. split; [done|]. apply tabulate_dims.
Qed.

(** *** Integer displacements *)

(** X5. Where the flow is a whole number of pixels [(dx, dy)], the warp copies
    one pixel of [prev_depth] without blending: the pixel at row [y + dy],
    column [x + dx], each index mirrored back into the map when it falls
    outside. The size of [prev_depth] need not be the flow's. *)
Theorem warp_integer_flow (flow : FlowField) (pd : DepthMap) h w H W y x f (dx dy : Z) :
  (0 < h)%nat → (0 < w)%nat → (0 < H)%nat → (0 < W)%nat →
  has_dims h w flow → has_dims H W pd →
  px flow y x = Some f →
  (f.1 == inject_Z dx)%Q → (f.2 == inject_Z dy)%Q →
  ∃ out v r c,
    warp_depth flow pd = Ok out ∧ has_dims h w out ∧
    px out y x = Some v ∧
    r = borderInterpolate (Z.of_nat y + dy) (Z.of_nat H) BORDER_REFLECT ∧
    c = borderInterpolate (Z.of_nat x + dx) (Z.of_nat W) BORDER_REFLECT ∧
    0 <= r < Z.of_nat H ∧ 0 <= c < Z.of_nat W ∧
    (v == get2 0%Q pd (Z.to_nat r) (Z.to_nat c))%Q.
Proof.
  intros Hh Hw HH HW Hf Hp Hfl Hdx Hdy.
  destruct (warp_depth_px flow pd h w H W) as (out & Hout & Hdims & Hpx); [done..|].
  destruct (borderInterpolate_reflect (Z.of_nat y + dy) (Z.of_nat H)) as [Hr _]; [lia|].
  destruct (borderInterpolate_reflect (Z.of_nat x + dx) (Z.of_nat W)) as [Hc _]; [lia|].
  eexists out, _, _, _. split; [done|]. split; [done|].
  split; [by apply Hpx|]. split; [done|]. split; [done|].
  split; [done|]. split; [done|].
  rewrite (remap_px_at_integer pd BORDER_REFLECT _ _
             (Z.of_nat x + dx) (Z.of_nat y + dy)).
  - unfold border_px. rewrite (shape_dims H W pd) by done.
    destruct (Z.ltb_spec (borderInterpolate (Z.of_nat y + dy) (Z.of_nat H) BORDER_REFLECT) 0);
      [lia|].
    destruct (Z.ltb_spec (borderInterpolate (Z.of_nat x + dx) (Z.of_nat W) BORDER_REFLECT) 0);
      [lia|].
    done.
  - rewrite Hdx, inject_Z_plus. done.
  - rewrite Hdy, inject_Z_plus. done.
Qed.

(** *** Leaving the loop *)

Lemma quit_pressed_spec (k : Z) : quit_pressed k = true ↔ k mod 256 = 113.
Proof.
  unfold quit_pressed. rewrite Z.eqb_eq.
  change 255 with (Z.ones 8). rewrite Z.land_ones by lia. done.
Qed.

(** Two runs in a row are one run. *)
Lemma run_app (a b : list Frame) : ∀ s,
  run s (a ++ b) =
  match run s a with
  | (s', Ok o1) =>
      match run s' b with
      | (s'', Ok o2) => (s'', Ok (o1 ++ o2))
      | (s'', Raise e) => (s'', Raise e)
      end
  | (s', Raise e) => (s', Raise e)
  end.
Proof.
  induction a as [|f a IH]; intros s; cbn [app run].
  - by destruct (run s b) as [s' [o|e]].
  - destruct (process_frame s f) as [s1 [o|e]]; [|done].
    rewrite IH. destruct (run s1 a) as [s2 [o1|e]]; [|done].
    by destruct (run s2 b) as [s3 [o2|e]].
Qed.

Lemma main_loop_app (pre tail : list (option Frame * Z)) : ∀ s,
  Forall (λ t, is_Some t.1 ∧ t.2 mod 256 ≠ 113) pre →
  main_loop s (pre ++ tail) =
  match run s (omap fst pre) with
  | (s', Ok o1) =>
      match main_loop s' tail with
      | (s'', Ok o2) => (s'', Ok (o1 ++ o2))
      | (s'', Raise e) => (s'', Raise e)
      end
  | (s', Raise e) => (s', Raise e)
  end.
Proof.
  induction pre as [|[[f|] k] pre IH]; intros s Hpre; cbn [app main_loop].
  - cbn. by destruct (main_loop s tail) as [s' [o|e]].
  - inversion Hpre as [|? ? [_ Hk] Hrest]; subst. cbn [fst snd] in Hk.
    change (omap fst ((Some f, k) :: pre)) with (f :: omap fst pre). cbn [run].
    destruct (process_frame s f) as [s1 [o|e]]; [|done].
    destruct (quit_pressed k) eqn:Hq; [by apply quit_pressed_spec in Hq|].
    rewrite IH by done.
    destruct (run s1 (omap fst pre)) as [s2 [o1|e]]; [|done].
    by destruct (main_loop s2 tail) as [s3 [o2|e]].
  - inversion Hpre as [|? ? [[? Hs] _] _]; subst. done.
Qed.

(** X6. As long as every read succeeds and no key code has the low byte of
    ['q'] (113), the loop processes the frames read, in order. A failed read
    ends it before anything else is done. A key code with that low byte ends
    it after the frame of that turn was processed and the state updated.
    Nothing that comes after either is looked at. *)
Theorem main_loop_stops (s : State) (pre post : list (option Frame * Z)) :
  Forall (λ t, is_Some t.1 ∧ t.2 mod 256 ≠ 113) pre →
  main_loop s pre = run s (omap fst pre) ∧
  (∀ k, main_loop s (pre ++ (None, k) :: post) = run s (omap fst pre)) ∧
  (∀ f k, k mod 256 = 113 →
     main_loop s (pre ++ (Some f, k) :: post) = run s (omap fst pre ++ [f])).
Proof.
  intros Hpre. split; [|split].
  - rewrite <- (app_nil_r pre) at 1. rewrite main_loop_app by done. cbn [main_loop].
    destruct (run s (omap fst pre)) as [s' [o|e]]; [|done]. by rewrite app_nil_r.
  - intros k. rewrite main_loop_app by done. cbn [main_loop].
    destruct (run s (omap fst pre)) as [s' [o|e]]; [|done]. by rewrite app_nil_r.
  - intros f k Hk. rewrite main_loop_app, run_app by done. cbn [main_loop run].
    destruct (run s (omap fst pre)) as [s' [o|e]]; [|done].
    destruct (process_frame s' f) as [s1 [o1|e]]; [|done].
    by rewrite (proj2 (quit_pressed_spec k) Hk).
Qed.

(** *** The map that is shown *)

Lemma fold_left_Qmin_le (l : list Q) : ∀ d,
  (fold_left Qmin l d <= d)%Q ∧ ∀ x, In x l → (fold_left Qmin l d <= x)%Q.
Proof.
  induction l as [|a l IH]; intros d; cbn [fold_left].
  - split; [apply Qle_refl | by intros x []].
  - destruct (IH (Qmin d a)) as [H1 H2]. split.
    + eapply Qle_trans; [exact H1 | apply Q.le_min_l].
    + intros x [<-|Hx]; [|by apply H2].
      eapply Qle_trans; [exact H1 | apply Q.le_min_r].
Qed.

Lemma fold_left_Qmax_ge (l : list Q) : ∀ d,
  (d <= fold_left Qmax l d)%Q ∧ ∀ x, In x l → (x <= fold_left Qmax l d)%Q.
Proof.
  induction l as [|a l IH]; intros d; cbn [fold_left].
  - split; [apply Qle_refl | by intros x []].
  - destruct (IH (Qmax d a)) as [H1 H2]. split.
    + eapply Qle_trans; [apply Q.le_max_l | exact H1].
    + intros x [<-|Hx]; [|by apply H2].
      eapply Qle_trans; [apply Q.le_max_r | exact H1].
Qed.

Lemma min_of_le (l : list Q) (x : Q) : In x l → (min_of l <= x)%Q.
Proof.
  destruct l as [|v vs]; [done|]. cbn [min_of].
  destruct (fold_left_Qmin_le vs v) as [H1 H2]. intros [<-|Hx]; auto.
Qed.

Lemma max_of_ge (l : list Q) (x : Q) : In x l → (x <= max_of l)%Q.
Proof.
  destruct l as [|v vs]; [done|]. cbn [max_of].
  destruct (fold_left_Qmax_ge vs v) as [H1 H2]. intros [<-|Hx]; auto.
Qed.

Lemma px_In_concat {A} (a : Array2 A) y x v : px a y x = Some v → In v (concat a).
Proof.
  unfold px. intros Hpx.
  destruct (a !! y) as [r|] eqn:Hr; simpl in Hpx; [|done].
  apply in_concat. exists r. split; apply list_elem_of_In; by eapply list_elem_of_lookup_2.
Qed.

(** The arithmetic of one normalised value, for a source value between the
    extremes [smin] and [smax]. *)
Lemma normalized_value (smin smax v : Q) :
  (smin <= v)%Q → (v <= smax)%Q →
  let scale := ((255 - 0)
                * (if Qle_bool (smax - smin) DBL_EPSILON then 0 else / (smax - smin)))%Q in
  let n := (v * scale + (0 - smin * scale))%Q in
  (0 <= scale)%Q ∧ (0 <= n)%Q ∧ (n <= 255)%Q ∧
  ((v == smin)%Q → (n == 0)%Q) ∧
  ((smax - smin <= DBL_EPSILON)%Q → (n == 0)%Q).
Proof.
  intros Hlo Hhi. cbv zeta.
  destruct (Qle_bool (smax - smin) DBL_EPSILON) eqn:Hb.
  - assert (Hn : (v * ((255 - 0) * 0) + (0 - smin * ((255 - 0) * 0)) == 0)%Q) by ring.
    split; [lra|]. split; [rewrite Hn; lra|]. split; [rewrite Hn; lra|].
    split; intros _; exact Hn.
  - assert (Hd : (DBL_EPSILON < smax - smin)%Q).
    { apply Qnot_le_lt. intros H. apply Qle_bool_iff in H. congruence. }
    assert (He : (0 < DBL_EPSILON)%Q) by reflexivity.
    assert (Hpos : (0 < smax - smin)%Q) by (eapply Qlt_trans; eassumption).
    assert (Ht : (0 < / (smax - smin))%Q) by by apply Qinv_lt_0_compat.
    assert (Hone : ((smax - smin) * / (smax - smin) == 1)%Q).
    { apply Qmult_inv_r. intros H. rewrite H in Hpos. by apply Qlt_irrefl in Hpos. }
    set (t := (/ (smax - smin))%Q) in *.
    repeat split.
    + nra.
    + nra.
    + nra.
    + intros Heq. rewrite Heq. ring.
    + intros H. exfalso. apply (Qlt_irrefl DBL_EPSILON).
      eapply Qlt_le_trans; eassumption.
Qed.

Lemma px_normalize (filtered : DepthMap) y x v :
  px filtered y x = Some v →
  px (cv2_normalize_minmax filtered 0 255) y x =
    Some (v * ((255 - 0)
               * (if Qle_bool (max_of (concat filtered) - min_of (concat filtered))
                       DBL_EPSILON
                  then 0 else / (max_of (concat filtered) - min_of (concat filtered))))
          + (0 - min_of (concat filtered)
                 * ((255 - 0)
                    * (if Qle_bool (max_of (concat filtered) - min_of (concat filtered))
                            DBL_EPSILON
                       then 0
                       else / (max_of (concat filtered) - min_of (concat filtered))))))%Q.
Proof.
  intros Hpx. unfold cv2_normalize_minmax.
  change (Qmin 0 255) with 0%Q. change (Qmax 0 255) with 255%Q. cbv zeta.
  rewrite px_map_map, Hpx. done.
Qed.

Lemma np_uint8_in_range (n : Q) :
  (0 <= n)%Q → (n <= 255)%Q → np_uint8 n = Qfloor n ∧ 0 <= Qfloor n <= 255.
Proof.
  intros H0 H1. unfold np_uint8.
  rewrite (proj2 (Qle_bool_iff 0 n) H0).
  assert (0 <= Qfloor n <= 255).
  { split.
    - change 0 with (Qfloor 0). by apply Qfloor_resp_le.
    - change 255 with (Qfloor 255). by apply Qfloor_resp_le. }
  split; [apply Z.mod_small; lia | done].
Qed.


(** X8. The display keeps the order of the depths: of two pixels of one
    filtered map, the one with the smaller depth is never shown brighter. *)
Theorem depth_vis_monotone (filtered : DepthMap) y1 x1 y2 x2 v1 v2 :
  px filtered y1 x1 = Some v1 → px filtered y2 x2 = Some v2 →
  (v1 <= v2)%Q →
  ∃ n1 n2, px (depth_vis filtered) y1 x1 = Some n1 ∧
    px (depth_vis filtered) y2 x2 = Some n2 ∧ n1 <= n2.
Proof.
  intros Hp1 Hp2 Hle.
  pose proof (px_In_concat _ _ _ _ Hp1) as Hin1.
  pose proof (px_In_concat _ _ _ _ Hp2) as Hin2.
  destruct (normalized_value (min_of (concat filtered)) (max_of (concat filtered)) v1)
    as (Hs & H10 & H11 & _); [by apply min_of_le | by apply max_of_ge |].
  destruct (normalized_value (min_of (concat filtered)) (max_of (concat filtered)) v2)
    as (_ & H20 & H21 & _); [by apply min_of_le | by apply max_of_ge |].
  destruct (np_uint8_in_range _ H10 H11) as [Hu1 _].
  destruct (np_uint8_in_range _ H20 H21) as [Hu2 _].
  eexists _, _. unfold depth_vis.
  rewrite !px_map_map, (px_normalize _ _ _ _ Hp1), (px_normalize _ _ _ _ Hp2). cbn.
  split; [done|]. split; [done|].
  rewrite Hu1, Hu2. apply Qfloor_resp_le.
  apply Qplus_le_l. by apply Qmult_le_compat_r.
Qed.

(** *** An exception of the display *)

(** X10. When the display raises, the frame is not counted and [prev_gray] is
    not replaced, but [filtered_depth] already holds the frame's smoothed map
    and, on an inferred frame, [prev_depth] already holds its raw map. *)
Theorem display_failure_state (s : State) (frame : Frame) (gray : GrayFrame)
    (d : Decision) (raw out : DepthMap) (e : exn) :
  cvtColor_BGR2GRAY frame = Ok gray →
  schedule cfg (frame_count s) (prev_depth s) = Ok d →
  raw_depth s frame = Ok raw →
  temporal_smoothing cfg raw (filtered_depth s) = Ok out →
  display out = Raise e →
  process_frame s frame
  = ({| frame_count := frame_count s;
        prev_gray := prev_gray s;
        prev_depth := match d with INFER => Some raw | PROPAGATE => prev_depth s end;
        filtered_depth := Some out |},
     Raise e).
Proof.
  intros Hg Hd Hr Ht He. rewrite process_frame_eq, Hg, Hd, Hr. cbn zeta.
  rewrite Ht, He. by destruct d.
Qed.

End Pipeline.

(** ** The loop on concrete frames

    The loop with the stand-ins of [Stub] and the notebook's configuration. *)

Abbreviation stub_process :=
  (process_frame Stub.gray_of_bgr unit Stub.midas_forward Stub.interpolate_bicubic
     Stub.farneback_solve Stub.display default_config).
Abbreviation stub_run :=
  (run Stub.gray_of_bgr unit Stub.midas_forward Stub.interpolate_bicubic
     Stub.farneback_solve Stub.display default_config).
Abbreviation stub_raw_depth :=
  (raw_depth Stub.gray_of_bgr unit Stub.midas_forward Stub.interpolate_bicubic
     Stub.farneback_solve default_config).



Ltac dims := split; [reflexivity | repeat constructor].

(** C7 fails for an exception of the smoothing stage on an inferred frame.
    Five 2-by-2 frames are processed; the sixth frame is 2-by-3 and is
    scheduled for inference ([frame_count] is 5). Its depth map is assigned to
    [prev_depth] in the inference branch, then the filter raises because the
    2-by-3 map and the stored 2-by-2 map do not broadcast: the exception
    leaves [prev_depth] changed. *)
Lemma smoothing_failure_changes_prev_depth :
  let s5 := (stub_run initial_state (replicate 5 (Stub.black 2 2))).1 in
  let r := stub_process s5 (Stub.black 2 3) in
  frame_count s5 = 5 ∧
  r.2 = Raise ValueError ∧
  prev_depth r.1 = Some (Stub.interpolate_bicubic tt (2, 3))%nat ∧
  prev_depth r.1 ≠ prev_depth s5.
Proof.
  cbv zeta. split; [by vm_compute|]. split; [by vm_compute|].
  split; [by vm_compute|]. vm_compute. discriminate.
Qed.

(** C10 fails in [float32]: with both inputs equal to 3.0 the filter returns
    [12582911 * 2^-22], the [float32] just below 3.0, which is smaller than
    both inputs. *)
Lemma float32_filter_undershoots :
  let three := Binary32.float32_of_Z 3 in
  let out := Binary32.apply_temporal_filter [[three]] [[three]] in
  (Binary32.to_Q three == 3)%Q ∧
  out = [[SpecFloat.S754_finite false 12582911 (-22)]] ∧
  ∃ o, px out 0 0 = Some o ∧
    ¬ (Qmin (Binary32.to_Q three) (Binary32.to_Q three) <= Binary32.to_Q o)%Q.
Proof.
  cbv zeta. split; [by vm_compute|]. split; [by vm_compute|].
  eexists. split; [by vm_compute|]. vm_compute. intros H. by apply H.
Qed.

(** ** The theorems at concrete inputs *)

(** Frame 10 with a depth map in store: inference, since 10 is a multiple
    of 5. *)
Lemma schedule_rule_witness :
  0 < FRAME_SKIP default_config ∧
  (schedule default_config 10 (Some tt) = Ok INFER
     ↔ 10 mod FRAME_SKIP default_config = 0 ∨ Some tt = None) ∧
  (schedule default_config 10 (Some tt) = Ok PROPAGATE
     ↔ ¬ (10 mod FRAME_SKIP default_config = 0 ∨ Some tt = None)) ∧
  (FRAME_SKIP default_config = 1 → schedule default_config 10 (Some tt) = Ok INFER).
Proof.
  split; [reflexivity|].
  apply (schedule_rule default_config 10 (Some tt)). reflexivity.
Defined.

Lemma temporal_filter_formula_witness :
  has_dims 2 2 [[1; 2]; [3; 4]]%Q ∧ has_dims 2 2 [[5; 6]; [7; 8]]%Q ∧
  (∃ out,
     apply_temporal_filter default_config [[1; 2]; [3; 4]]%Q [[5; 6]; [7; 8]]%Q = Ok out ∧
     temporal_smoothing default_config [[1; 2]; [3; 4]]%Q (Some [[5; 6]; [7; 8]]%Q)
       = Ok out ∧
     has_dims 2 2 out ∧
     ∀ y x, (y < 2)%nat → (x < 2)%nat →
       ∃ p n, px [[5; 6]; [7; 8]]%Q y x = Some p ∧ px [[1; 2]; [3; 4]]%Q y x = Some n ∧
         px out y x = Some (TEMPORAL_ALPHA default_config * p
                            + (1 - TEMPORAL_ALPHA default_config) * n)%Q) ∧
  TEMPORAL_ALPHA default_config = (9 # 10)%Q ∧
  (0 < TEMPORAL_ALPHA default_config)%Q ∧ (TEMPORAL_ALPHA default_config < 1)%Q.
Proof.
  split; [dims|]. split; [dims|].
  destruct (temporal_filter_formula default_config
              [[1; 2]; [3; 4]]%Q [[5; 6]; [7; 8]]%Q 2 2)
    as (H1 & H2 & H3 & H4 & _); [dims | dims |].
  split; [exact H1|]. split; [exact H2|]. split; [exact H3 | exact H4].
Defined.

(** The first frame of a stream. *)
Lemma temporal_smoothing_init_witness :
  filtered_depth initial_state = None ∧
  stub_process initial_state (Stub.black 2 2)
    = ({| frame_count := 1; prev_gray := Some [[0; 0]; [0; 0]];
          prev_depth := Some [[1; 2]; [2; 3]]%Q;
          filtered_depth := Some [[1; 2]; [2; 3]]%Q |},
       Ok [[1; 2]; [2; 3]]%Q) ∧
  stub_raw_depth initial_state (Stub.black 2 2) = Ok [[1; 2]; [2; 3]]%Q.
Proof.
  split; [reflexivity|]. split; [vm_compute; reflexivity|].
  refine (proj1 (proj2 (temporal_smoothing_init Stub.gray_of_bgr unit Stub.midas_forward
            Stub.interpolate_bicubic Stub.farneback_solve Stub.display default_config
            initial_state (Stub.black 2 2)) _ _ _ _));
    [reflexivity | vm_compute; reflexivity].
Defined.


Lemma state_update_witness :
  stub_process initial_state (Stub.black 2 2)
    = ({| frame_count := 1; prev_gray := Some [[0; 0]; [0; 0]];
          prev_depth := Some [[1; 2]; [2; 3]]%Q;
          filtered_depth := Some [[1; 2]; [2; 3]]%Q |},
       Ok [[1; 2]; [2; 3]]%Q) ∧
  ∃ gray raw,
    cvtColor_BGR2GRAY Stub.gray_of_bgr (Stub.black 2 2) = Ok gray ∧
    stub_raw_depth initial_state (Stub.black 2 2) = Ok raw ∧
    temporal_smoothing default_config raw (filtered_depth initial_state)
      = Ok [[1; 2]; [2; 3]]%Q ∧
    {| frame_count := 1; prev_gray := Some [[0; 0]; [0; 0]];
       prev_depth := Some [[1; 2]; [2; 3]]%Q;
       filtered_depth := Some [[1; 2]; [2; 3]]%Q |}
    = {| frame_count := frame_count initial_state + 1; prev_gray := Some gray;
         prev_depth := Some raw; filtered_depth := Some [[1; 2]; [2; 3]]%Q |}.
Proof.
  split; [vm_compute; reflexivity|].
  destruct (state_update Stub.gray_of_bgr unit Stub.midas_forward
              Stub.interpolate_bicubic Stub.farneback_solve Stub.display default_config
              initial_state (Stub.black 2 2) _ _ eq_refl)
    as (gray & raw & Hg & Hr & _ & _ & Ht & Hs & _).
  exists gray, raw. split; [exact Hg|]. split; [exact Hr|]. split; [exact Ht | exact Hs].
Defined.


(** A 2-by-3 frame after a 2-by-2 frame, scheduled for propagation. *)
Lemma failure_keeps_state_witness :
  let s1 := {| frame_count := 1; prev_gray := Some [[0; 0]; [0; 0]];
               prev_depth := Some [[1; 2]; [2; 3]]%Q;
               filtered_depth := Some [[1; 2]; [2; 3]]%Q |} in
  schedule default_config (frame_count s1) (prev_depth s1) = Ok PROPAGATE ∧
  shape [[0; 0]; [0; 0]] ≠ shape [[0; 0; 0]; [0; 0; 0]] ∧
  stub_process s1 (Stub.black 2 3) = (s1, Raise cv2_error).
Proof.
  cbv zeta. split; [reflexivity|]. split; [discriminate|].
  refine (proj1 (proj2 (proj2 (failure_keeps_state Stub.gray_of_bgr unit
            Stub.midas_forward Stub.interpolate_bicubic Stub.farneback_solve
            Stub.display default_config _ (Stub.black 2 3))))
            [[0; 0; 0]; [0; 0; 0]] [[0; 0]; [0; 0]] [[1; 2]; [2; 3]]%Q _ _ _ _ _);
    [reflexivity | reflexivity | reflexivity | reflexivity | discriminate].
Defined.

Lemma flow_rejects_size_mismatch_witness :
  shape [[0; 0]] ≠ shape [[0; 0; 0]] ∧
  calcOpticalFlowFarneback Stub.farneback_solve [[0; 0]] [[0; 0; 0]] = Raise cv2_error ∧
  ∀ pd, propagate_depth_optical_flow Stub.farneback_solve [[0; 0]] [[0; 0; 0]] pd
        = Raise cv2_error.
Proof.
  split; [discriminate|].
  apply (flow_rejects_size_mismatch Stub.farneback_solve [[0; 0]] [[0; 0; 0]]).
  discriminate.
Defined.

Lemma warp_zero_flow_identity_witness :
  has_dims 2 2 [[(0, 0); (0, 0)]; [(0, 0); (0, 0)]]%Q ∧
  has_dims 2 2 [[1; 2]; [3; 4]]%Q ∧
  ∃ out,
    warp_depth [[(0, 0); (0, 0)]; [(0, 0); (0, 0)]]%Q [[1; 2]; [3; 4]]%Q = Ok out ∧
    has_dims 2 2 out ∧
    ∀ y x v, px [[1; 2]; [3; 4]]%Q y x = Some v →
      ∃ v', px out y x = Some v' ∧ (v' == v)%Q.
Proof.
  split; [dims|]. split; [dims|].
  apply (warp_zero_flow_identity
           [[(0, 0); (0, 0)]; [(0, 0); (0, 0)]]%Q [[1; 2]; [3; 4]]%Q 2 2);
    [lia | lia | dims | dims |].
  intros [|[|y]] [|[|x]] f Hf; unfold px in Hf; simpl in Hf;
    try congruence; by rewrite lookup_nil in Hf.
Defined.

Lemma temporal_filter_convex_witness :
  (0 < TEMPORAL_ALPHA default_config)%Q ∧ (TEMPORAL_ALPHA default_config < 1)%Q ∧
  ∃ out,
    apply_temporal_filter default_config [[1; 2]; [3; 4]]%Q [[5; 6]; [7; 8]]%Q = Ok out ∧
    ∀ y x, (y < 2)%nat → (x < 2)%nat →
      ∃ p n o, px [[5; 6]; [7; 8]]%Q y x = Some p ∧ px [[1; 2]; [3; 4]]%Q y x = Some n ∧
        px out y x = Some o ∧ (Qmin p n <= o)%Q ∧ (o <= Qmax p n)%Q.
Proof.
  split; [reflexivity|]. split; [reflexivity|].
  apply (temporal_filter_convex default_config
           [[1; 2]; [3; 4]]%Q [[5; 6]; [7; 8]]%Q 2 2); [reflexivity | reflexivity | dims | dims].
Defined.

(** ** Which estimator a frame runs *)

(** X9. A frame runs one estimator only. On a frame scheduled for
    propagation the result and the state do not depend on the network or on
    the resize; on a frame scheduled for inference they do not depend on the
    flow solver. *)
Theorem one_estimator_per_frame
    (gray_of_bgr : BGR → Z)
    (T1 : Type) (net1 : Array2 BGR → result T1) (resize1 : T1 → nat * nat → DepthMap)
    (T2 : Type) (net2 : Array2 BGR → result T2) (resize2 : T2 → nat * nat → DepthMap)
    (solve1 solve2 : GrayFrame → GrayFrame → FlowField)
    (display : DepthMap → result unit) (cfg : Config) (s : State) (frame : Frame) :
  (schedule cfg (frame_count s) (prev_depth s) = Ok PROPAGATE →
     process_frame gray_of_bgr T1 net1 resize1 solve1 display cfg s frame
     = process_frame gray_of_bgr T2 net2 resize2 solve1 display cfg s frame) ∧
  (schedule cfg (frame_count s) (prev_depth s) = Ok INFER →
     process_frame gray_of_bgr T1 net1 resize1 solve1 display cfg s frame
     = process_frame gray_of_bgr T1 net1 resize1 solve2 display cfg s frame).
Proof.
  split; intros Hd; rewrite !process_frame_eq; unfold raw_depth;
    destruct (cvtColor_BGR2GRAY gray_of_bgr frame) as [gray|e]; try done;
    by rewrite Hd.
Qed.

(** ** The further theorems at concrete inputs *)

Lemma run_progress_witness :
  ∃ s' outs,
    stub_run initial_state (replicate 6 (Stub.black 2 2)) = (s', Ok outs) ∧
    frame_count s' = frame_count initial_state + 6 ∧
    length outs = 6%nat ∧
    is_Some (prev_gray s') ∧ is_Some (prev_depth s') ∧
    filtered_depth s' = last outs.
Proof.
  destruct (stub_run initial_state (replicate 6 (Stub.black 2 2)))
    as [s' [outs|e]] eqn:Hrun; [|vm_compute in Hrun; discriminate].
  exists s', outs. split; [reflexivity|].
  destruct (run_progress Stub.gray_of_bgr unit Stub.midas_forward
              Stub.interpolate_bicubic Stub.farneback_solve Stub.display default_config
              (replicate 6 (Stub.black 2 2)) initial_state s' outs Hrun)
    as (Hc & Hl & Hne).
  split; [exact Hc|]. split; [exact Hl|]. apply Hne. discriminate.
Defined.

(** After five frames the sixth is inferred. *)
Lemma schedule_along_stream_witness :
  0 < FRAME_SKIP default_config ∧
  ∃ s' outs,
    stub_run initial_state (replicate 5 (Stub.black 2 2)) = (s', Ok outs) ∧
    schedule default_config (frame_count s') (prev_depth s') = Ok INFER.
Proof.
  split; [reflexivity|].
  destruct (stub_run initial_state (replicate 5 (Stub.black 2 2)))
    as [s' [outs|e]] eqn:Hrun; [|vm_compute in Hrun; discriminate].
  exists s', outs. split; [reflexivity|].
  apply (schedule_along_stream Stub.gray_of_bgr unit Stub.midas_forward
           Stub.interpolate_bicubic Stub.farneback_solve Stub.display default_config
           (replicate 5 (Stub.black 2 2)) s' outs); [reflexivity | exact Hrun].
Defined.

Lemma zero_frame_skip_raises_witness :
  FRAME_SKIP (mkConfig 0 (9 # 10)) = 0 ∧
  is_empty (Stub.black 2 2) = false ∧
  process_frame Stub.gray_of_bgr unit Stub.midas_forward Stub.interpolate_bicubic
    Stub.farneback_solve Stub.display (mkConfig 0 (9 # 10)) initial_state
    (Stub.black 2 2)
  = (initial_state, Raise ZeroDivisionError).
Proof.
  split; [reflexivity|]. split; [reflexivity|].
  apply (zero_frame_skip_raises Stub.gray_of_bgr unit Stub.midas_forward
           Stub.interpolate_bicubic Stub.farneback_solve Stub.display
           (mkConfig 0 (9 # 10)) initial_state (Stub.black 2 2)); reflexivity.
Defined.

(** A 1-by-1 map against a 2-by-2 history: no error, a 2-by-2 result. *)
Lemma temporal_filter_broadcast_witness :
  has_dims 1 1 [[7]]%Q ∧ has_dims 2 2 [[1; 2]; [3; 4]]%Q ∧
  ∃ out, apply_temporal_filter default_config [[7]]%Q [[1; 2]; [3; 4]]%Q = Ok out ∧
    has_dims 2 2 out.
Proof.
  split; [dims|]. split; [dims|].
  apply (proj2 (temporal_filter_broadcast default_config [[7]]%Q [[1; 2]; [3; 4]]%Q
                  1 1 2 2 ltac:(lia) ltac:(lia) ltac:(lia) ltac:(lia)
                  ltac:(dims) ltac:(dims))).
  intros [(_ & _ & H)|(_ & _ & H)]; by apply H.
Defined.

(** One pixel to the right: the last column reads its own value (the mirror
    of the column past the edge). *)
Lemma warp_integer_flow_witness :
  has_dims 2 2 [[(1, 0); (1, 0)]; [(1, 0); (1, 0)]]%Q ∧
  has_dims 2 2 [[1; 2]; [3; 4]]%Q ∧
  ∃ out v,
    warp_depth [[(1, 0); (1, 0)]; [(1, 0); (1, 0)]]%Q [[1; 2]; [3; 4]]%Q = Ok out ∧
    px out 0 1 = Some v ∧ (v == 2)%Q.
Proof.
  split; [dims|]. split; [dims|].
  destruct (warp_integer_flow [[(1, 0); (1, 0)]; [(1, 0); (1, 0)]]%Q
              [[1; 2]; [3; 4]]%Q 2 2 2 2 0 1 (1, 0)%Q 1 0)
    as (out & v & r & c & Hout & _ & Hv & -> & -> & _ & _ & Heq);
    [lia | lia | lia | lia | dims | dims | reflexivity | reflexivity | reflexivity |].
  exists out, v. split; [exact Hout|]. split; [exact Hv | exact Heq].
Defined.

(** Two turns without a key, the key ['q'] on the third, a fourth turn that
    is never reached. *)
Lemma main_loop_stops_witness :
  Forall (λ t : option Frame * Z, is_Some t.1 ∧ t.2 mod 256 ≠ 113)
    [(Some (Stub.black 2 2), -1); (Some (Stub.black 2 2), -1)] ∧
  113 mod 256 = 113 ∧
  main_loop Stub.gray_of_bgr unit Stub.midas_forward Stub.interpolate_bicubic
    Stub.farneback_solve Stub.display default_config initial_state
    ([(Some (Stub.black 2 2), -1); (Some (Stub.black 2 2), -1)]
       ++ (Some (Stub.black 2 2), 113) :: [(Some (Stub.black 2 3), -1)])
  = stub_run initial_state (replicate 3 (Stub.black 2 2)).
Proof.
  assert (Hpre : Forall (λ t : option Frame * Z, is_Some t.1 ∧ t.2 mod 256 ≠ 113)
            [(Some (Stub.black 2 2), -1); (Some (Stub.black 2 2), -1)]).
  { repeat constructor; (by eexists) || discriminate. }
  split; [exact Hpre|]. split; [reflexivity|].
  apply (proj2 (proj2 (main_loop_stops Stub.gray_of_bgr unit Stub.midas_forward
           Stub.interpolate_bicubic Stub.farneback_solve Stub.display default_config
           initial_state _ [(Some (Stub.black 2 3), -1)] Hpre))
           (Stub.black 2 2) 113).
  reflexivity.
Defined.


Lemma depth_vis_monotone_witness :
  px [[1; 2]; [3; 5]]%Q 0 1 = Some 2%Q ∧ px [[1; 2]; [3; 5]]%Q 1 0 = Some 3%Q ∧
  (2 <= 3)%Q ∧
  ∃ n1 n2, px (depth_vis [[1; 2]; [3; 5]]%Q) 0 1 = Some n1 ∧
    px (depth_vis [[1; 2]; [3; 5]]%Q) 1 0 = Some n2 ∧ n1 <= n2.
Proof.
  split; [reflexivity|]. split; [reflexivity|]. split; [discriminate|].
  apply (depth_vis_monotone [[1; 2]; [3; 5]]%Q 0 1 1 0 2%Q 3%Q eq_refl eq_refl).
  discriminate.
Defined.

(** A propagated frame with a network that always raises. *)
Lemma one_estimator_per_frame_witness :
  let s1 := {| frame_count := 1; prev_gray := Some [[0; 0]; [0; 0]];
               prev_depth := Some [[1; 2]; [2; 3]]%Q;
               filtered_depth := Some [[1; 2]; [2; 3]]%Q |} in
  schedule default_config (frame_count s1) (prev_depth s1) = Ok PROPAGATE ∧
  stub_process s1 (Stub.black 2 2)
  = process_frame Stub.gray_of_bgr unit (λ _, Raise RuntimeError)
      Stub.interpolate_bicubic Stub.farneback_solve Stub.display default_config
      s1 (Stub.black 2 2).
Proof.
  cbv zeta. split; [reflexivity|].
  apply (proj1 (one_estimator_per_frame Stub.gray_of_bgr
                  unit Stub.midas_forward Stub.interpolate_bicubic
                  unit (λ _, Raise RuntimeError) Stub.interpolate_bicubic
                  Stub.farneback_solve Stub.farneback_solve Stub.display
                  default_config _ (Stub.black 2 2))).
  reflexivity.
Defined.

(** The first frame with a display that is not available. *)
Lemma display_failure_state_witness :
  process_frame Stub.gray_of_bgr unit Stub.midas_forward Stub.interpolate_bicubic
    Stub.farneback_solve (λ _, Raise DisplayError) default_config initial_state
    (Stub.black 2 2)
  = ({| frame_count := 0; prev_gray := None;
        prev_depth := Some [[1; 2]; [2; 3]]%Q;
        filtered_depth := Some [[1; 2]; [2; 3]]%Q |},
     Raise DisplayError).
Proof.
  apply (display_failure_state Stub.gray_of_bgr unit Stub.midas_forward
           Stub.interpolate_bicubic Stub.farneback_solve (λ _, Raise DisplayError)
           default_config initial_state (Stub.black 2 2)
           [[0; 0]; [0; 0]] INFER [[1; 2]; [2; 3]]%Q [[1; 2]; [2; 3]]%Q DisplayError);
    vm_compute; reflexivity.
Defined.

(** ** Where the code departs from the formulas *)

(** C2 fails in [float32]: with the history 5.0 and the new depth 1.0 the
    filter returns [9646899 * 2^-21] (4.5999999), not
    [0.9 * 5 + (1 - 0.9) * 1 = 23/5]. *)
Lemma float32_filter_off_formula :
  let f := Binary32.float32_of_Z in
  let out := Binary32.apply_temporal_filter
               [[f 1; f 2]; [f 3; f 4]] [[f 5; f 6]; [f 7; f 8]] in
  (Binary32.to_Q (f 5%Z) == 5)%Q ∧ (Binary32.to_Q (f 1%Z) == 1)%Q ∧
  ∃ o, px out 0 0 = Some o ∧
    (Binary32.to_Q o == 9646899 # 2097152)%Q ∧
    ¬ (Binary32.to_Q o == (9 # 10) * 5 + (1 - (9 # 10)) * 1)%Q.
Proof.
  cbv zeta. split; [by vm_compute|]. split; [by vm_compute|].
  eexists. split; [by vm_compute|]. split; [by vm_compute|].
  vm_compute. discriminate.
Qed.


